(** * support-hub: the ticket domain model

    A shallow embedding of [tickets/models.py] (with the form of
    [tickets/forms.py] and the foreign key added by
    [accounts/migrations/0002_customuser_team.py]) together with the part
    of the object-relational layer the models rely on: field defaults,
    field validators, [save(update_fields=...)], the [on_delete] rules and
    the default [Meta.ordering] of a listing.

    Timestamps are integers (microseconds since the epoch, UTC), primary
    keys are integers, text is [string].  A table is the list of its rows
    in the order the store yields them. *)

From Stdlib Require Import ZArith List String Ascii Bool Lia Sorted.
From Stdlib Require DecimalString DecimalZ DecimalPos.
Import ListNotations.

Local Open Scope string_scope.
Local Open Scope list_scope.
Local Open Scope Z_scope.

(** ** Results of fallible operations *)

Inductive Result (E A : Type) : Type :=
| Ok (a : A)
| Err (e : E).

Arguments Ok {E A} a.
Arguments Err {E A} e.

(** ** Text helpers (Python [str]) *)

Module Text.

(** [c in s] for a single character. *)
Fixpoint contains (c : ascii) (s : string) : bool :=
  match s with
  | EmptyString => false
  | String x r => Ascii.eqb x c || contains c r
  end.

(** [s.count(c)] for a single character. *)
Fixpoint count (c : ascii) (s : string) : nat :=
  match s with
  | EmptyString => O
  | String x r => ((if Ascii.eqb x c then 1 else 0) + count c r)%nat
  end.

(** The ASCII characters for which [str.isspace] holds. *)
Definition is_space (c : ascii) : bool :=
  let n := nat_of_ascii c in
  ((9 <=? n) && (n <=? 13) || (28 <=? n) && (n <=? 32))%nat.

Definition is_alpha (c : ascii) : bool :=
  let n := nat_of_ascii c in
  ((65 <=? n) && (n <=? 90) || (97 <=? n) && (n <=? 122))%nat.

Fixpoint lstrip (s : string) : string :=
  match s with
  | EmptyString => EmptyString
  | String c r => if is_space c then lstrip r else s
  end.

Fixpoint rstrip (s : string) : string :=
  match s with
  | EmptyString => EmptyString
  | String c r =>
      match rstrip r with
      | EmptyString => if is_space c then EmptyString else String c EmptyString
      | r' => String c r'
      end
  end.

(** [s.strip()]: leading and trailing whitespace removed. *)
Definition strip (s : string) : string := rstrip (lstrip s).

(** [len(s)] as an integer. *)
Definition len (s : string) : Z := Z.of_nat (String.length s).

Definition mem (x : string) (l : list string) : bool :=
  existsb (String.eqb x) l.

End Text.

(** ** [django.utils.html.strip_tags] *)

Module Html.
Import Text.

(** The character after a ["<"] that makes it the start of a tag: a
    letter (start tag), ["/"] (end tag), ["!"] (comment, declaration) or
    ["?"] (processing instruction). *)
Definition opens_tag (r : string) : bool :=
  match r with
  | EmptyString => false
  | String c _ =>
      is_alpha c || Ascii.eqb c "/" || Ascii.eqb c "!" || Ascii.eqb c "?"
  end.

(** One pass of the tag scanner.  Outside a tag every character is data
    and is kept, except a ["<"] that opens a tag which is closed further
    on; inside a tag everything up to and including the closing [">"] is
    dropped.  A ["<"] that opens no tag, or a tag never closed, is data. *)
Fixpoint scan (in_tag : bool) (s : string) : string :=
  match s with
  | EmptyString => EmptyString
  | String c r =>
      if in_tag then scan (negb (Ascii.eqb c ">")) r
      else if Ascii.eqb c "<" && opens_tag r && contains ">" r
           then scan true r
           else String c (scan false r)
  end.

Definition _strip_once (value : string) : string := scan false value.

(** The loop of [strip_tags]: strip again while a pass still removes a
    ["<"].  Each further pass works on a strictly shorter text, so
    [length value] passes are enough. *)
Fixpoint strip_loop (fuel : nat) (value : string) : string :=
  match fuel with
  | O => value
  | S k =>
      if contains "<" value && contains ">" value then
        let new_value := _strip_once value in
        if Nat.eqb (count "<" value) (count "<" new_value) then value
        else strip_loop k new_value
      else value
  end.

(** Modelled from the spec: [strip_tags] is imported from
    [django.utils.html] and is not part of the repository; the spec's
    [stripMarkup] "removes all markup tags from a rich-text body".  The
    model is the library's loop around a scanner for [<...>] tags. *)
Definition strip_tags (value : string) : string :=
  strip_loop (S (String.length value)) value.

End Html.

(** ** Validators

    [tickets/validators.py] is imported by the models but is not among the
    sources; both validators are taken from the specification. *)

Inductive ValidationError : Type :=
| EmptyOrTooShort
| TitleLengthOutOfRange
| InvalidImageType
| ImageTooLarge
| InvalidChoice.

(** An uploaded image, as far as validation looks at it. *)
Record Image : Type := {
  image_format : string;   (* "jpg", "png", ... *)
  image_size : Z           (* bytes *)
}.

(** The error kinds of the domain. *)
Inductive Error : Type :=
| ValidationFailed (violations : list ValidationError)
| NotFoundError
| DatabaseError.

(** A validation run reports every rule it finds violated; no violation
    is success. *)
Definition from_violations (vs : list ValidationError) : Result Error unit :=
  match vs with
  | [] => Ok tt
  | _ :: _ => Err (ValidationFailed vs)
  end.

Definition fails_with {A : Type} (r : Result Error A) (e : ValidationError)
  : Prop :=
  match r with
  | Err (ValidationFailed vs) => In e vs
  | _ => False
  end.

Module Validators.
Import Text.

(** Modelled from the spec: [validateNonEmptyText(value, minLength)]
    "strips leading/trailing whitespace; fails with EmptyOrTooShort if
    the stripped value's length < minLength or if stripped value is
    empty". *)
Definition non_empty_text_violations (value : string) (min_length : Z)
  : list ValidationError :=
  let stripped := strip value in
  if (len stripped <? min_length) || (len stripped =? 0)
  then [EmptyOrTooShort] else [].

Definition validateNonEmptyText (value : string) (min_length : Z)
  : Result Error unit :=
  from_violations (non_empty_text_violations value min_length).

(** Modelled from the spec: [textfield_not_empty(min_length)] lives in
    [tickets/validators.py], which is missing; the spec asks that the
    text "after HTML-tag removal, has length >= 20 and is not
    whitespace-only", so the validator looks at the text with its tags
    stripped. *)
Definition textfield_not_empty (min_length : Z) (value : string)
  : list ValidationError :=
  non_empty_text_violations (Html.strip_tags value) min_length.

Definition permitted_image_formats : list string := ["jpg"; "png"].

(** 3 MB. *)
Definition max_image_size : Z := 3 * 1024 * 1024.

(** Modelled from the spec: [validate_image] lives in
    [tickets/validators.py], which is missing; [validateImage] "fails
    with InvalidImageType if the file's extension/content-type is not
    one of {jpg, png}; fails with ImageTooLarge if size exceeds 3 MB
    (3 * 1024 * 1024 bytes)". *)
Definition validate_image (f : Image) : list ValidationError :=
  (if mem (image_format f) permitted_image_formats
   then [] else [InvalidImageType])
  ++ (if image_size f >? max_image_size then [ImageTooLarge] else []).

Definition validateImage (f : Image) : Result Error unit :=
  from_violations (validate_image f).

(** [django.core.validators.MinLengthValidator(limit)] together with the
    [max_length] of a [CharField]. *)
Definition length_between (lo hi : Z) (value : string)
  : list ValidationError :=
  if (len value <? lo) || (hi <? len value)
  then [TitleLengthOutOfRange] else [].

(** A field declared with [choices] accepts the listed values only. *)
Definition one_of (choices : list string) (value : string)
  : list ValidationError :=
  if mem value choices then [] else [InvalidChoice].

End Validators.

(** ** Ordered listings *)

Module Orm.

(** A term of an [ordering]: a column, ascending or (["-column"])
    descending. *)
Inductive order_term (A : Type) : Type :=
| asc (column : A -> Z)
| desc (column : A -> Z).

Arguments asc {A} column.
Arguments desc {A} column.

Section OrderBy.
Context {A : Type}.

Definition compare_term (o : order_term A) (a b : A) : comparison :=
  match o with
  | asc f => f a ?= f b
  | desc f => f b ?= f a
  end.

(** Lexicographic comparison along the terms of the ordering. *)
Fixpoint compare_by (os : list (order_term A)) (a b : A) : comparison :=
  match os with
  | [] => Eq
  | o :: rest =>
      match compare_term o a b with
      | Eq => compare_by rest a b
      | c => c
      end
  end.

Definition comes_first (os : list (order_term A)) (a b : A) : bool :=
  match compare_by os a b with
  | Gt => false
  | _ => true
  end.

Fixpoint insert_row (os : list (order_term A)) (x : A) (l : list A)
  : list A :=
  match l with
  | [] => [x]
  | y :: rest =>
      if comes_first os x y then x :: l else y :: insert_row os x rest
  end.

(** [ORDER BY]: the rows sorted along [os]; rows the ordering does not
    tell apart stay in the order the store yields them. *)
Fixpoint order_by (os : list (order_term A)) (rows : list A) : list A :=
  match rows with
  | [] => []
  | x :: rest => insert_row os x (order_by os rest)
  end.

End OrderBy.

End Orm.

(** ** Models *)

Module Team.
Record t : Type := { id : Z; name : string }.
End Team.

Module TicketCategory.
Record t : Type := { id : Z; name : string }.
End TicketCategory.

(** [accounts.CustomUser], the [AUTH_USER_MODEL]; its [team] is a nullable
    foreign key to [Team] with [on_delete=SET_NULL]. *)
Module CustomUser.
Record t : Type := { id : Z; team : option Z }.

Definition with_team (v : option Z) (u : t) : t :=
  {| id := id u; team := v |}.
End CustomUser.

Module Ticket.

Definition STATUS : list string := ["open"; "inprogress"; "onhold"; "closed"].
Definition TYPE : list string := ["request"; "incident"].
Definition PRIORITY : list string := ["low"; "medium"; "high"].

Definition STATUS_open : string := "open".
Definition TYPE_request : string := "request".
Definition PRIORITY_low : string := "low".

Record t : Type := {
  id : Z;
  author : Z;                        (* on_delete=CASCADE *)
  title : string;
  description : string;
  ticket_image : option Image;       (* blank=True *)
  status : string;
  type : string;
  priority : string;
  created_on : Z;                    (* auto_now_add=True *)
  updated_on : Z;                    (* auto_now=True *)
  category : option Z;               (* on_delete=SET_NULL, null=True *)
  assigned_team : option Z;          (* on_delete=SET_NULL, null=True *)
  assigned_technician : option Z     (* on_delete=SET_NULL, null=True *)
}.

(** The persisted fields, as [update_fields] names them. *)
Inductive field : Type :=
| f_author | f_title | f_description | f_ticket_image | f_status | f_type
| f_priority | f_created_on | f_updated_on | f_category | f_assigned_team
| f_assigned_technician.

Definition with_status (v : string) (x : t) : t :=
  {| id := id x; author := author x; title := title x;
     description := description x; ticket_image := ticket_image x;
     status := v; type := type x; priority := priority x;
     created_on := created_on x; updated_on := updated_on x;
     category := category x; assigned_team := assigned_team x;
     assigned_technician := assigned_technician x |}.

Definition with_updated_on (v : Z) (x : t) : t :=
  {| id := id x; author := author x; title := title x;
     description := description x; ticket_image := ticket_image x;
     status := status x; type := type x; priority := priority x;
     created_on := created_on x; updated_on := v;
     category := category x; assigned_team := assigned_team x;
     assigned_technician := assigned_technician x |}.

Definition with_category (v : option Z) (x : t) : t :=
  {| id := id x; author := author x; title := title x;
     description := description x; ticket_image := ticket_image x;
     status := status x; type := type x; priority := priority x;
     created_on := created_on x; updated_on := updated_on x;
     category := v; assigned_team := assigned_team x;
     assigned_technician := assigned_technician x |}.

Definition with_assigned_team (v : option Z) (x : t) : t :=
  {| id := id x; author := author x; title := title x;
     description := description x; ticket_image := ticket_image x;
     status := status x; type := type x; priority := priority x;
     created_on := created_on x; updated_on := updated_on x;
     category := category x; assigned_team := v;
     assigned_technician := assigned_technician x |}.

Definition with_assigned_technician (v : option Z) (x : t) : t :=
  {| id := id x; author := author x; title := title x;
     description := description x; ticket_image := ticket_image x;
     status := status x; type := type x; priority := priority x;
     created_on := created_on x; updated_on := updated_on x;
     category := category x; assigned_team := assigned_team x;
     assigned_technician := v |}.

(** [row] with field [f] taken from [inst]: what saving [inst] with [f]
    among the [update_fields] writes to its row. *)
Definition write_field (inst : t) (f : field) (row : t) : t :=
  match f with
  | f_author =>
      {| id := id row; author := author inst; title := title row;
         description := description row; ticket_image := ticket_image row;
         status := status row; type := type row; priority := priority row;
         created_on := created_on row; updated_on := updated_on row;
         category := category row; assigned_team := assigned_team row;
         assigned_technician := assigned_technician row |}
  | f_title =>
      {| id := id row; author := author row; title := title inst;
         description := description row; ticket_image := ticket_image row;
         status := status row; type := type row; priority := priority row;
         created_on := created_on row; updated_on := updated_on row;
         category := category row; assigned_team := assigned_team row;
         assigned_technician := assigned_technician row |}
  | f_description =>
      {| id := id row; author := author row; title := title row;
         description := description inst; ticket_image := ticket_image row;
         status := status row; type := type row; priority := priority row;
         created_on := created_on row; updated_on := updated_on row;
         category := category row; assigned_team := assigned_team row;
         assigned_technician := assigned_technician row |}
  | f_ticket_image =>
      {| id := id row; author := author row; title := title row;
         description := description row; ticket_image := ticket_image inst;
         status := status row; type := type row; priority := priority row;
         created_on := created_on row; updated_on := updated_on row;
         category := category row; assigned_team := assigned_team row;
         assigned_technician := assigned_technician row |}
  | f_status => with_status (status inst) row
  | f_type =>
      {| id := id row; author := author row; title := title row;
         description := description row; ticket_image := ticket_image row;
         status := status row; type := type inst; priority := priority row;
         created_on := created_on row; updated_on := updated_on row;
         category := category row; assigned_team := assigned_team row;
         assigned_technician := assigned_technician row |}
  | f_priority =>
      {| id := id row; author := author row; title := title row;
         description := description row; ticket_image := ticket_image row;
         status := status row; type := type row; priority := priority inst;
         created_on := created_on row; updated_on := updated_on row;
         category := category row; assigned_team := assigned_team row;
         assigned_technician := assigned_technician row |}
  | f_created_on =>
      {| id := id row; author := author row; title := title row;
         description := description row; ticket_image := ticket_image row;
         status := status row; type := type row; priority := priority row;
         created_on := created_on inst; updated_on := updated_on row;
         category := category row; assigned_team := assigned_team row;
         assigned_technician := assigned_technician row |}
  | f_updated_on => with_updated_on (updated_on inst) row
  | f_category => with_category (category inst) row
  | f_assigned_team => with_assigned_team (assigned_team inst) row
  | f_assigned_technician =>
      with_assigned_technician (assigned_technician inst) row
  end.

(** The validators the fields declare: [title] has [max_length=50] and
    [MinLengthValidator(10)], [description] has
    [textfield_not_empty(min_length=20)], [ticket_image] has
    [validate_image] and may be left blank, [status], [type] and
    [priority] have [choices]. *)
Definition clean_fields (x : t) : list ValidationError :=
  Validators.length_between 10 50 (title x)
  ++ Validators.textfield_not_empty 20 (description x)
  ++ match ticket_image x with
     | None => []
     | Some f => Validators.validate_image f
     end
  ++ Validators.one_of STATUS (status x)
  ++ Validators.one_of TYPE (type x)
  ++ Validators.one_of PRIORITY (priority x).

(** [class Meta: ordering = ("-updated_on",)]: the most recently updated
    tickets first. *)
Definition Meta_ordering : list (Orm.order_term t) :=
  [Orm.desc updated_on].

End Ticket.

Module Comment.

Record t : Type := {
  id : Z;
  ticket : Z;              (* on_delete=CASCADE *)
  author : option Z;       (* on_delete=SET_NULL, null=True *)
  body : string;
  created_on : Z           (* auto_now_add=True *)
}.

Definition with_author (v : option Z) (c : t) : t :=
  {| id := id c; ticket := ticket c; author := v; body := body c;
     created_on := created_on c |}.

(** The model declares no [Meta.ordering]. *)
Definition Meta_ordering : list (Orm.order_term t) := [].

(** [body = models.TextField(validators=[textfield_not_empty()])]: the
    body must not be empty. *)
Definition clean_fields (c : t) : list ValidationError :=
  Validators.textfield_not_empty 0 (body c).


End Comment.

(** ** The store *)

Record Store : Type := {
  teams : list Team.t;
  categories : list TicketCategory.t;
  users : list CustomUser.t;
  tickets : list Ticket.t;
  comments : list Comment.t;
  ticket_seq : Z;      (* last primary key the tickets table handed out *)
  comment_seq : Z      (* last primary key the comments table handed out *)
}.

Definition empty_store : Store :=
  {| teams := []; categories := []; users := []; tickets := [];
     comments := []; ticket_seq := 0; comment_seq := 0 |}.

Definition with_tickets (v : list Ticket.t) (s : Store) : Store :=
  {| teams := teams s; categories := categories s; users := users s;
     tickets := v; comments := comments s;
     ticket_seq := ticket_seq s; comment_seq := comment_seq s |}.

Definition pk_in (pk : Z) (pks : list Z) : bool := existsb (Z.eqb pk) pks.

Definition references (fk : option Z) (pk : Z) : bool :=
  match fk with
  | Some k => k =? pk
  | None => false
  end.

(** [on_delete=SET_NULL] for one foreign key value. *)
Definition set_null (pk : Z) (fk : option Z) : option Z :=
  if references fk pk then None else fk.

(** A nullable foreign key is null or names an existing row. *)
Definition fk_ok (fk : option Z) (pks : list Z) : bool :=
  match fk with
  | None => true
  | Some k => pk_in k pks
  end.

(** ** Queries *)

(** [getTicket(id)]: the ticket with that primary key. *)
Definition getTicket (s : Store) (pk : Z) : Result Error Ticket.t :=
  match find (fun row => Ticket.id row =? pk) (tickets s) with
  | Some row => Ok row
  | None => Err NotFoundError
  end.

Record TicketFilter : Type := {
  by_status : option string;
  by_category : option Z;
  by_team : option Z;
  by_technician : option Z;
  by_author : option Z
}.

Definition no_filter : TicketFilter :=
  {| by_status := None; by_category := None; by_team := None;
     by_technician := None; by_author := None |}.

Definition wanted {A : Type} (eqb : A -> A -> bool) (want : option A)
  (have : A) : bool :=
  match want with
  | None => true
  | Some v => eqb v have
  end.

Definition wanted_fk (want : option Z) (have : option Z) : bool :=
  match want with
  | None => true
  | Some v => references have v
  end.

(** The predicates of a filter are conjunctive. *)
Definition matches (f : TicketFilter) (x : Ticket.t) : bool :=
  wanted String.eqb (by_status f) (Ticket.status x)
  && wanted_fk (by_category f) (Ticket.category x)
  && wanted_fk (by_team f) (Ticket.assigned_team x)
  && wanted_fk (by_technician f) (Ticket.assigned_technician x)
  && wanted Z.eqb (by_author f) (Ticket.author x).

(** [listTickets(filter)]: the matching tickets in the model's default
    ordering. *)
Definition listTickets (f : TicketFilter) (s : Store) : list Ticket.t :=
  Orm.order_by Ticket.Meta_ordering (filter (matches f) (tickets s)).

(** [listComments(ticketId)]: [ticket.comments], the comments whose
    [ticket] is [ticketId], in the model's default ordering. *)
Definition listComments (s : Store) (ticketId : Z) : list Comment.t :=
  Orm.order_by Comment.Meta_ordering
    (filter (fun c => Comment.ticket c =? ticketId) (comments s)).

(** ** Saving *)

(** [instance.save(update_fields=fields)]: the row with the instance's
    primary key gets the listed fields of the instance and keeps the rest;
    a save that reaches no row is an error and changes nothing. *)
Definition save_update_fields (fields : list Ticket.field)
  (inst : Ticket.t) (s : Store) : Result Error unit * Store :=
  if existsb (fun row => Ticket.id row =? Ticket.id inst) (tickets s)
  then
    (Ok tt,
     with_tickets
       (map (fun row =>
               if Ticket.id row =? Ticket.id inst
               then fold_left (fun r f => Ticket.write_field inst f r)
                      fields row
               else row)
          (tickets s))
       s)
  else (Err DatabaseError, s).

(** [Ticket.set_ticket_updated_now]: sets the instance's [updated_on] to
    the current time and saves that field.  [now] is what [get_time_now]
    reads, the current UTC time; the field is [auto_now], so the save
    stamps it with the current time as well, and the call is taken to
    happen at the one instant [now].  The result is the instance after the
    call and the outcome of the save. *)
Definition set_ticket_updated_now (now : Z) (self : Ticket.t) (s : Store)
  : (Ticket.t * Result Error unit) * Store :=
  let self' := Ticket.with_updated_on now self in
  let '(r, s') := save_update_fields [Ticket.f_updated_on] self' s in
  ((self', r), s').

(** [touchUpdatedTimestamp(ticket)] for the ticket with primary key [pk]. *)
Definition touchUpdatedTimestamp (now : Z) (pk : Z) (s : Store)
  : Result Error unit * Store :=
  match getTicket s pk with
  | Err e => (Err e, s)
  | Ok self => let '((_, r), s') := set_ticket_updated_now now self s in (r, s')
  end.


(** ** Creating tickets and comments *)

(** What a caller supplies for a new ticket; a field left out takes the
    model's default.  The category may be left out: the column is
    [null=True] ([blank=False] makes it required only in a form that shows
    the field). *)
Record TicketData : Type := {
  data_author : Z;
  data_title : string;
  data_description : string;
  data_image : option Image;
  data_type : option string;
  data_status : option string;
  data_priority : option string;
  data_category : option Z
}.

Definition or_default {A : Type} (v : option A) (default : A) : A :=
  match v with
  | Some x => x
  | None => default
  end.

(** The instance [Ticket(...)] builds: [status] defaults to [STATUS.open],
    [type] to [TYPE.request], [priority] to [PRIORITY.low]; the nullable
    relations default to null.  Saving a new instance stamps [created_on]
    ([auto_now_add]) and [updated_on] ([auto_now]) with the time of the
    save and gives it the next primary key. *)
Definition new_ticket (pk now : Z) (d : TicketData) : Ticket.t :=
  {| Ticket.id := pk;
     Ticket.author := data_author d;
     Ticket.title := data_title d;
     Ticket.description := data_description d;
     Ticket.ticket_image := data_image d;
     Ticket.status := or_default (data_status d) Ticket.STATUS_open;
     Ticket.type := or_default (data_type d) Ticket.TYPE_request;
     Ticket.priority := or_default (data_priority d) Ticket.PRIORITY_low;
     Ticket.created_on := now;
     Ticket.updated_on := now;
     Ticket.category := data_category d;
     Ticket.assigned_team := None;
     Ticket.assigned_technician := None |}.

(** Modelled from the spec: the view that creates tickets is not among the
    sources; [createTicket] "applies the field invariants, assigns status =
    open, priority = low default, stamps created_on = updated_on = now
    (UTC)", and "no partial writes - entity is only persisted fully
    valid".  The invariants and defaults are those the model declares. *)
Definition createTicket (now : Z) (d : TicketData) (s : Store)
  : Result Error Ticket.t * Store :=
  let x := new_ticket (ticket_seq s + 1) now d in
  match Ticket.clean_fields x with
  | [] =>
      (Ok x,
       {| teams := teams s; categories := categories s; users := users s;
          tickets := tickets s ++ [x]; comments := comments s;
          ticket_seq := ticket_seq s + 1; comment_seq := comment_seq s |})
  | vs => (Err (ValidationFailed vs), s)
  end.

(** Modelled from the spec: the view that adds comments is not among the
    sources; a comment is "created by any ticket participant", its [ticket]
    is required and its [body] must pass the model's validator;
    [created_on] is stamped at creation ([auto_now_add]). *)
Definition createComment (now : Z) (ticketId : Z) (author : Z)
  (body : string) (s : Store) : Result Error Comment.t * Store :=
  match getTicket s ticketId with
  | Err e => (Err e, s)
  | Ok _ =>
      let c := {| Comment.id := comment_seq s + 1;
                  Comment.ticket := ticketId;
                  Comment.author := Some author;
                  Comment.body := body;
                  Comment.created_on := now |} in
      match Comment.clean_fields c with
      | [] =>
          (Ok c,
           {| teams := teams s; categories := categories s;
              users := users s; tickets := tickets s;
              comments := comments s ++ [c];
              ticket_seq := ticket_seq s; comment_seq := comment_seq s + 1 |})
      | vs => (Err (ValidationFailed vs), s)
      end
  end.

(** ** Staff updates *)

(** A change to one ticket: the instance is loaded, [change] is applied to
    it, [updated_on] is refreshed and the changed fields are saved together
    with [updated_on]. *)
Definition update_ticket (now : Z) (pk : Z) (fields : list Ticket.field)
  (change : Ticket.t -> Ticket.t) (s : Store) : Result Error Ticket.t * Store :=
  match getTicket s pk with
  | Err e => (Err e, s)
  | Ok row =>
      let inst := Ticket.with_updated_on now (change row) in
      match save_update_fields (fields ++ [Ticket.f_updated_on]) inst s with
      | (Ok _, s') => (Ok inst, s')
      | (Err e, s') => (Err e, s')
      end
  end.

(** Modelled from the spec: the view that edits tickets is not among the
    sources; [updateStatus] may set "any of the four values", "always
    refreshes updated_on to current UTC time and persists only that field
    plus status".  A value outside the model's [choices] is refused. *)
Definition updateStatus (now : Z) (pk : Z) (newStatus : string) (s : Store)
  : Result Error Ticket.t * Store :=
  match Validators.one_of Ticket.STATUS newStatus with
  | [] =>
      update_ticket now pk [Ticket.f_status] (Ticket.with_status newStatus) s
  | vs => (Err (ValidationFailed vs), s)
  end.

(** Modelled from the spec: [assignTeam], [assignTechnician] and
    [assignCategory] "each sets the corresponding optional relation and
    refreshes updated_on"; the relation is null or an existing row. *)
Definition assignTeam (now : Z) (pk : Z) (team : option Z) (s : Store)
  : Result Error Ticket.t * Store :=
  if fk_ok team (map Team.id (teams s))
  then update_ticket now pk [Ticket.f_assigned_team]
         (Ticket.with_assigned_team team) s
  else (Err NotFoundError, s).

Definition assignTechnician (now : Z) (pk : Z) (user : option Z) (s : Store)
  : Result Error Ticket.t * Store :=
  if fk_ok user (map CustomUser.id (users s))
  then update_ticket now pk [Ticket.f_assigned_technician]
         (Ticket.with_assigned_technician user) s
  else (Err NotFoundError, s).

Definition assignCategory (now : Z) (pk : Z) (category : option Z) (s : Store)
  : Result Error Ticket.t * Store :=
  if fk_ok category (map TicketCategory.id (categories s))
  then update_ticket now pk [Ticket.f_category]
         (Ticket.with_category category) s
  else (Err NotFoundError, s).

(** ** Deletion and the [on_delete] rules *)

(** Deleting a team: [Ticket.assigned_team] and [CustomUser.team] are
    [SET_NULL]. *)
Definition delete_team (pk : Z) (s : Store) : Store :=
  {| teams := filter (fun x => negb (Team.id x =? pk)) (teams s);
     categories := categories s;
     users :=
       map (fun u => CustomUser.with_team (set_null pk (CustomUser.team u)) u)
         (users s);
     tickets :=
       map (fun x =>
              Ticket.with_assigned_team (set_null pk (Ticket.assigned_team x)) x)
         (tickets s);
     comments := comments s;
     ticket_seq := ticket_seq s; comment_seq := comment_seq s |}.

(** Deleting a category: [Ticket.category] is [SET_NULL]. *)
Definition delete_category (pk : Z) (s : Store) : Store :=
  {| teams := teams s;
     categories :=
       filter (fun x => negb (TicketCategory.id x =? pk)) (categories s);
     users := users s;
     tickets :=
       map (fun x => Ticket.with_category (set_null pk (Ticket.category x)) x)
         (tickets s);
     comments := comments s;
     ticket_seq := ticket_seq s; comment_seq := comment_seq s |}.

(** The primary keys of the tickets a user authored. *)
Definition tickets_authored_by (u : Z) (s : Store) : list Z :=
  map Ticket.id (filter (fun x => Ticket.author x =? u) (tickets s)).

(** Deleting a user: [Ticket.author] is [CASCADE], and [Comment.ticket] is
    [CASCADE] in turn; [Ticket.assigned_technician] and [Comment.author]
    are [SET_NULL]. *)
Definition delete_user (u : Z) (s : Store) : Store :=
  let gone := tickets_authored_by u s in
  {| teams := teams s;
     categories := categories s;
     users := filter (fun x => negb (CustomUser.id x =? u)) (users s);
     tickets :=
       map (fun x =>
              Ticket.with_assigned_technician
                (set_null u (Ticket.assigned_technician x)) x)
         (filter (fun x => negb (Ticket.author x =? u)) (tickets s));
     comments :=
       map (fun c => Comment.with_author (set_null u (Comment.author c)) c)
         (filter (fun c => negb (pk_in (Comment.ticket c) gone)) (comments s));
     ticket_seq := ticket_seq s; comment_seq := comment_seq s |}.

(** Deleting a ticket: [Comment.ticket] is [CASCADE]. *)
Definition delete_ticket (pk : Z) (s : Store) : Store :=
  {| teams := teams s; categories := categories s; users := users s;
     tickets := filter (fun x => negb (Ticket.id x =? pk)) (tickets s);
     comments :=
       filter (fun c => negb (Comment.ticket c =? pk)) (comments s);
     ticket_seq := ticket_seq s; comment_seq := comment_seq s |}.

(** ** The operations as a transition system *)

Inductive Op : Type :=
| CreateTicket (now : Z) (d : TicketData)
| CreateComment (now : Z) (ticketId : Z) (author : Z) (body : string)
| UpdateStatus (now : Z) (pk : Z) (newStatus : string)
| AssignTeam (now : Z) (pk : Z) (team : option Z)
| AssignTechnician (now : Z) (pk : Z) (user : option Z)
| AssignCategory (now : Z) (pk : Z) (category : option Z)
| TouchUpdatedTimestamp (now : Z) (pk : Z)
| AddTeam (x : Team.t)
| AddCategory (x : TicketCategory.t)
| AddUser (x : CustomUser.t)
| DeleteTeam (pk : Z)
| DeleteCategory (pk : Z)
| DeleteUser (pk : Z)
| DeleteTicket (pk : Z).

(** The store after an operation; a failed operation leaves it as it was. *)
Definition step (s : Store) (op : Op) : Store :=
  match op with
  | CreateTicket now d => snd (createTicket now d s)
  | CreateComment now t a b => snd (createComment now t a b s)
  | UpdateStatus now pk v => snd (updateStatus now pk v s)
  | AssignTeam now pk v => snd (assignTeam now pk v s)
  | AssignTechnician now pk v => snd (assignTechnician now pk v s)
  | AssignCategory now pk v => snd (assignCategory now pk v s)
  | TouchUpdatedTimestamp now pk => snd (touchUpdatedTimestamp now pk s)
  | AddTeam x =>
      {| teams := teams s ++ [x]; categories := categories s;
         users := users s; tickets := tickets s; comments := comments s;
         ticket_seq := ticket_seq s; comment_seq := comment_seq s |}
  | AddCategory x =>
      {| teams := teams s; categories := categories s ++ [x];
         users := users s; tickets := tickets s; comments := comments s;
         ticket_seq := ticket_seq s; comment_seq := comment_seq s |}
  | AddUser x =>
      {| teams := teams s; categories := categories s;
         users := users s ++ [x]; tickets := tickets s;
         comments := comments s;
         ticket_seq := ticket_seq s; comment_seq := comment_seq s |}
  | DeleteTeam pk => delete_team pk s
  | DeleteCategory pk => delete_category pk s
  | DeleteUser pk => delete_user pk s
  | DeleteTicket pk => delete_ticket pk s
  end.

Definition run (ops : list Op) (s : Store) : Store := fold_left step ops s.

(** ** Properties of listings *)

(** [a] comes before [b] in [l]. *)
Definition precedes {A : Type} (a b : A) (l : list A) : Prop :=
  exists l1 l2 l3, l = l1 ++ a :: l2 ++ b :: l3.

(** The status, type and priority of a ticket are among the declared
    choices. *)
Definition choices_ok (x : Ticket.t) : Prop :=
  In (Ticket.status x) Ticket.STATUS
  /\ In (Ticket.type x) Ticket.TYPE
  /\ In (Ticket.priority x) Ticket.PRIORITY.



(** ** Sample data *)

Definition printer_ticket : TicketData :=
  {| data_author := 1;
     data_title := "Printer broken today";
     data_description := "<p>It prints blank pages.</p>";
     data_image := None;
     data_type := Some "incident";
     data_status := None;
     data_priority := None;
     data_category := None |}.

(** Two tickets created at the same instant. *)
Definition two_tickets_same_instant : Store :=
  run [CreateTicket 5 printer_ticket; CreateTicket 5 printer_ticket]
    empty_store.

(** What the specification asks of the default listing. *)
Definition recent_first_then_id (l : list Ticket.t) : Prop :=
  forall a b, In a l -> In b l ->
    (Ticket.updated_on a > Ticket.updated_on b -> precedes a b l)
    /\ (Ticket.updated_on a = Ticket.updated_on b ->
        Ticket.id a > Ticket.id b -> precedes a b l).

Definition older_and_newer : Store :=
  run [CreateTicket 5 printer_ticket; CreateTicket 9 printer_ticket]
    empty_store.




(** The same conversation with the clock running forward. *)
Definition conversation : list Op :=
  [CreateTicket 1 printer_ticket;
   CreateComment 5 1 2 "Have you tried turning it off and on?";
   CreateComment 10 1 1 "Yes, twice."].

(** A ticket whose description is too short once its tags are removed. *)
Definition terse_ticket : TicketData :=
  {| data_author := 1;
     data_title := "Printer broken today";
     data_description := "<p><strong>It is broken.</strong></p>";
     data_image := None;
     data_type := Some "incident";
     data_status := None;
     data_priority := None;
     data_category := None |}.

(** A ticket is raised; a status outside the choices is tried, then the
    ticket is closed. *)
Definition triage : list Op :=
  [CreateTicket 5 printer_ticket;
   UpdateStatus 6 1 "resolved";
   UpdateStatus 7 1 "closed"].

(** A ticket assigned to team 5. *)
Definition assigned_to_network : Store :=
  run [AddTeam {| Team.id := 5; Team.name := "Network" |};
       CreateTicket 5 printer_ticket;
       AssignTeam 6 1 (Some 5)]
    empty_store.

(** Two stores that differ in the tickets table at most. *)
Definition same_but_tickets (s s' : Store) : Prop :=
  teams s' = teams s /\ categories s' = categories s /\ users s' = users s
  /\ comments s' = comments s /\ ticket_seq s' = ticket_seq s
  /\ comment_seq s' = comment_seq s.

(** One stored ticket, and an instance of it whose status was changed in
    memory only. *)
Definition one_ticket : Store := run [CreateTicket 5 printer_ticket] empty_store.

Definition edited_instance : Ticket.t :=
  Ticket.with_status "closed" (new_ticket 1 5 printer_ticket).

(** A rich text seen as a sequence of stretches of data and tags. *)
Inductive segment : Type :=
| Data (text : string)
| Tag (inner : string).

(** The text a sequence of segments stands for: a tag is written between
    ["<"] and [">"]. *)
Fixpoint render (gs : list segment) : string :=
  match gs with
  | [] => EmptyString
  | Data text :: rest => String.append text (render rest)
  | Tag inner :: rest =>
      String "<" (String.append inner (String ">" (render rest)))
  end.



(** [a] may come before [b] in a listing ordered by [key] descending. *)
Definition descending {A : Type} (key : A -> Z) (a b : A) : Prop :=
  key b <= key a.



(** User 1 raises ticket 1 and user 2 raises ticket 2; each comments on
    the other's ticket. *)
Definition two_users : Store :=
  run [AddUser {| CustomUser.id := 1; CustomUser.team := None |};
       AddUser {| CustomUser.id := 2; CustomUser.team := None |};
       CreateTicket 1 printer_ticket;
       CreateTicket 2
         {| data_author := 2;
            data_title := "Cannot log in at all";
            data_description := "The password reset mail never arrives.";
            data_image := None; data_type := None; data_status := None;
            data_priority := None; data_category := None |};
       CreateComment 3 1 2 "Same here on the second floor.";
       CreateComment 4 2 1 "Check the spam folder."]
    empty_store.

(** A ticket filed under category 3 and handed to technician 2. *)
Definition hardware_ticket : TicketData :=
  {| data_author := 1;
     data_title := "Printer broken today";
     data_description := "<p>It prints blank pages.</p>";
     data_image := None;
     data_type := Some "incident";
     data_status := None;
     data_priority := None;
     data_category := Some 3 |}.

Definition in_hand : Store :=
  run [AddUser {| CustomUser.id := 1; CustomUser.team := None |};
       AddUser {| CustomUser.id := 2; CustomUser.team := None |};
       AddCategory {| TicketCategory.id := 3; TicketCategory.name := "Hardware" |};
       CreateTicket 5 hardware_ticket;
       AssignTechnician 6 1 (Some 2)]
    empty_store.

(** The ticket of [in_hand] as it is stored. *)
Definition ticket_in_hand : Ticket.t :=
  Ticket.with_updated_on 6
    (Ticket.with_assigned_technician (Some 2) (new_ticket 1 5 hardware_ticket)).

(** An operation left the tables other than the tickets alone and kept
    the tickets' rows, whatever it wrote into them. *)
Definition keeps_rows (s s' : Store) : Prop :=
  same_but_tickets s s'
  /\ map Ticket.id (tickets s') = map Ticket.id (tickets s).

(** Every comment belongs to a stored ticket. *)
Definition no_orphans (s : Store) : Prop :=
  forall c, In c (comments s) ->
            In (Comment.ticket c) (map Ticket.id (tickets s)).

(** The tickets' primary keys are pairwise distinct and were all handed
    out by the sequence. *)
Definition keys_fresh (s : Store) : Prop :=
  NoDup (map Ticket.id (tickets s))
  /\ Forall (fun x => Ticket.id x <= ticket_seq s) (tickets s).


(** The clock reading an operation takes, if it takes one. *)
Definition op_time (op : Op) : option Z :=
  match op with
  | CreateTicket now _ | CreateComment now _ _ _ | UpdateStatus now _ _
  | AssignTeam now _ _ | AssignTechnician now _ _ | AssignCategory now _ _
  | TouchUpdatedTimestamp now _ => Some now
  | _ => None
  end.

(** The clock readings of a run of operations, in the order of the run. *)
Fixpoint clock_readings (ops : list Op) : list Z :=
  match ops with
  | [] => []
  | op :: rest =>
      match op_time op with
      | Some now => now :: clock_readings rest
      | None => clock_readings rest
      end
  end.

(** A [CharField] with [choices], as a model or a migration declares it. *)
Record CharField : Type := {
  max_length : Z;
  choices : list (string * string);   (* stored value, label *)
  default : string
}.

(** [Ticket.status], [Ticket.type] and [Ticket.priority] with the labels
    of their [Choices]. *)
Definition Ticket_status : CharField :=
  {| max_length := 10;
     choices := [("open", "Open"); ("inprogress", "In Progress");
                 ("onhold", "On Hold"); ("closed", "Closed")];
     default := Ticket.STATUS_open |}.

Definition Ticket_type : CharField :=
  {| max_length := 8;
     choices := [("request", "Request"); ("incident", "Incident")];
     default := Ticket.TYPE_request |}.

Definition Ticket_priority : CharField :=
  {| max_length := 6;
     choices := [("low", "Low"); ("medium", "Medium"); ("high", "High")];
     default := Ticket.PRIORITY_low |}.

(** The field [migrations.AlterField(model_name='ticket', name='status',
    ...)] of migration 0003 installs. *)
Definition Migration_0003_alter_ticket_status : CharField :=
  {| max_length := 10;
     choices := [("open", "Open"); ("inprogress", "In Progress");
                 ("onhold", "On Hold"); ("closed", "Closed")];
     default := "open" |}.

(** A stored value is one of the field's choices and fits its column. *)
Definition fits (f : CharField) (value : string) : Prop :=
  In value (map fst (choices f)) /\ Text.len value <= max_length f.

(** ** Display strings *)

(** [str(n)] for an integer: its decimal digits, after a ["-"] if it is
    negative. *)
Definition str_int (n : Z) : string :=
  DecimalString.NilZero.string_of_int (Z.to_int n).

(** [Ticket.__str__]: [f"Request #: {self.id} - {self.title}"]. *)
Definition Ticket__str__ (self : Ticket.t) : string :=
  String.append "Request #: "
    (String.append (str_int (Ticket.id self))
       (String.append " - " (Ticket.title self))).

(** [Team.__str__] and [TicketCategory.__str__]: the name. *)
Definition Team__str__ (self : Team.t) : string := Team.name self.

Definition TicketCategory__str__ (self : TicketCategory.t) : string :=
  TicketCategory.name self.

(** ** The staff form *)





(** ** Settings *)

(** [s.split(sep)] for a one-character separator. *)
Fixpoint split (sep : ascii) (s : string) : list string :=
  match s with
  | EmptyString => [EmptyString]
  | String c r =>
      if Ascii.eqb c sep then EmptyString :: split sep r
      else match split sep r with
           | [] => [String c EmptyString]
           | h :: t => String c h :: t
           end
  end.

(** [sep.join(parts)] for a one-character separator. *)
Fixpoint join (sep : ascii) (parts : list string) : string :=
  match parts with
  | [] => EmptyString
  | [h] => h
  | h :: t => String.append h (String sep (join sep t))
  end.

(** [os.environ]: the value of a variable, if it is set. *)
Definition Environ : Type := string -> option string.

(** [ALLOWED_HOSTS = environ.get("ALLOWED_HOSTS", "127.0.0.1").split(",")]. *)
Definition ALLOWED_HOSTS (environ : Environ) : list string :=
  split "," (or_default (environ "ALLOWED_HOSTS") "127.0.0.1").

(** * Properties *)

(** ** The definitions at work *)

Example strip_tags_less_than :
  Html.strip_tags "1 < 2 and <i>so on</i>" = "1 < 2 and so on".
Proof. reflexivity. Qed.

Example strip_tags_unclosed : Html.strip_tags "a <b" = "a <b".
Proof. reflexivity. Qed.

Example strip_tags_twice : Html.strip_tags "<<b>i>x" = "x".
Proof. reflexivity. Qed.

Example strip_both_ends : Text.strip "  ab c  " = "ab c".
Proof. reflexivity. Qed.

Example render_bold :
  render [Tag "b"; Data "Hi"; Tag "/b"; Data "  "] = "<b>Hi</b>  ".
Proof. reflexivity. Qed.

Example printer_ticket_created :
  fst (createTicket 5 printer_ticket empty_store)
  = Ok (new_ticket 1 5 printer_ticket).
Proof. reflexivity. Qed.

Example status_outside_choices_refused :
  fst (updateStatus 6 1 "resolved" one_ticket)
  = Err (ValidationFailed [InvalidChoice]).
Proof. reflexivity. Qed.

Example image_at_limit_accepted :
  Validators.validateImage
    {| image_format := "png"; image_size := 3145728 |} = Ok tt.
Proof. reflexivity. Qed.

Example image_over_limit_refused :
  Validators.validateImage
    {| image_format := "png"; image_size := 3145729 |}
  = Err (ValidationFailed [ImageTooLarge]).
Proof. reflexivity. Qed.

Example listing_same_instant :
  map Ticket.id (listTickets no_filter two_tickets_same_instant) = [1; 2].
Proof. reflexivity. Qed.

Example listing_recent_first :
  map Ticket.id (listTickets no_filter older_and_newer) = [2; 1].
Proof. reflexivity. Qed.

Example delete_first_user :
  map Ticket.id (tickets (delete_user 1 two_users)) = [2]
  /\ map (fun c => (Comment.id c, Comment.ticket c, Comment.author c))
       (comments (delete_user 1 two_users))
     = [(2, 2, None)].
Proof. split; reflexivity. Qed.


(** ** Ordered listings *)

Section InsertionSort.
Context {A : Type} (os : list (Orm.order_term A)).

Lemma insert_row_In (x a : A) (l : list A) :
  In a (Orm.insert_row os x l) <-> a = x \/ In a l.
Proof.
  induction l as [|y rest IH]; simpl.
  - intuition congruence.
  - destruct (Orm.comes_first os x y); simpl; [intuition congruence|].
    rewrite IH. intuition.
Qed.

Lemma order_by_In (a : A) (rows : list A) :
  In a (Orm.order_by os rows) <-> In a rows.
Proof.
  induction rows as [|x rest IH]; simpl; [tauto|].
  rewrite insert_row_In, IH. intuition congruence.
Qed.

Lemma order_by_length (rows : list A) :
  List.length (Orm.order_by os rows) = List.length rows.
Proof.
  assert (Hins : forall x l,
             List.length (Orm.insert_row os x l) = S (List.length l)).
  { intros x l. induction l as [|y rest IH]; simpl; [reflexivity|].
    destruct (Orm.comes_first os x y); simpl; congruence. }
  induction rows as [|x rest IH]; simpl; [reflexivity|].
  rewrite Hins. congruence.
Qed.

End InsertionSort.

(** With no ordering declared, a listing is the rows as the store yields
    them. *)
Lemma order_by_nil {A : Type} (rows : list A) : Orm.order_by [] rows = rows.
Proof.
  induction rows as [|x rest IH]; simpl; [reflexivity|].
  rewrite IH. destruct rest; reflexivity.
Qed.

Section DescendingKey.
Context {A : Type} (key : A -> Z).

Lemma comes_first_desc (a b : A) :
  Orm.comes_first [Orm.desc key] a b = true <-> key b <= key a.
Proof.
  unfold Orm.comes_first; simpl.
  destruct (key b ?= key a) eqn:E.
  - apply Z.compare_eq in E. split; [lia | reflexivity].
  - rewrite Z.compare_lt_iff in E. split; [lia | reflexivity].
  - rewrite Z.compare_gt_iff in E. split; [discriminate | lia].
Qed.

Lemma insert_row_desc_sorted (x : A) (l : list A) :
  StronglySorted (descending key) l ->
  StronglySorted (descending key) (Orm.insert_row [Orm.desc key] x l).
Proof.
  induction 1 as [|y rest Hs IH Hall]; simpl.
  - constructor; constructor.
  - destruct (Orm.comes_first [Orm.desc key] x y) eqn:E.
    + apply comes_first_desc in E.
      constructor; [constructor; assumption|].
      constructor; [exact E|].
      rewrite Forall_forall in Hall |- *. intros z Hz.
      specialize (Hall z Hz). unfold descending in *. lia.
    + assert (Hxy : key x <= key y).
      { destruct (Z_le_gt_dec (key y) (key x)) as [Hle|Hgt]; [|lia].
        apply comes_first_desc in Hle. congruence. }
      constructor; [exact IH|].
      rewrite Forall_forall in Hall |- *. intros z Hz.
      apply insert_row_In in Hz. destruct Hz as [->|Hz]; [exact Hxy|].
      exact (Hall z Hz).
Qed.

Lemma order_by_desc_sorted (rows : list A) :
  StronglySorted (descending key) (Orm.order_by [Orm.desc key] rows).
Proof.
  induction rows as [|x rest IH]; simpl.
  - constructor.
  - apply insert_row_desc_sorted, IH.
Qed.

Lemma sorted_desc_precedes (l : list A) (a b : A) :
  StronglySorted (descending key) l ->
  In a l -> In b l -> key a > key b -> precedes a b l.
Proof.
  induction 1 as [|x rest Hs IH Hall]; intros Ha Hb Hgt.
  - destruct Ha.
  - rewrite Forall_forall in Hall. unfold descending in Hall.
    destruct Ha as [->|Ha].
    + destruct Hb as [->|Hb]; [lia|].
      apply in_split in Hb. destruct Hb as (l2 & l3 & ->).
      exists [], l2, l3. reflexivity.
    + destruct Hb as [->|Hb].
      * specialize (Hall a Ha). lia.
      * destruct (IH Ha Hb Hgt) as (l1 & l2 & l3 & ->).
        exists (x :: l1), l2, l3. reflexivity.
Qed.

End DescendingKey.

(** C1 (as the code has it): in the result of [listTickets] with the empty
    filter, a ticket updated more recently than another one precedes it.
    The ordering is [("-updated_on",)] alone; it says nothing about
    tickets updated at the same instant. *)
Theorem listTickets_recent_first (s : Store) (a b : Ticket.t) :
  In a (listTickets no_filter s) ->
  In b (listTickets no_filter s) ->
  Ticket.updated_on a > Ticket.updated_on b ->
  precedes a b (listTickets no_filter s).
Proof.
  intros Ha Hb Hgt.
  apply (sorted_desc_precedes Ticket.updated_on); try assumption.
  unfold listTickets, Ticket.Meta_ordering.
  apply order_by_desc_sorted.
Qed.

Lemma listTickets_recent_first_witness :
  precedes (new_ticket 2 9 printer_ticket) (new_ticket 1 5 printer_ticket)
    (listTickets no_filter older_and_newer).
Proof.
  apply listTickets_recent_first.
  - vm_compute. left. reflexivity.
  - vm_compute. right. left. reflexivity.
  - vm_compute. reflexivity.
Defined.

(** C1 (as stated) fails: two tickets updated at the same instant are
    listed in the order the store yields them, here the one with the
    smaller id first. *)
Lemma listTickets_ties_not_by_id :
  ~ recent_first_then_id (listTickets no_filter two_tickets_same_instant).
Proof.
  intros H.
  destruct (H (new_ticket 2 5 printer_ticket) (new_ticket 1 5 printer_ticket))
    as [_ Htie].
  - vm_compute. right. left. reflexivity.
  - vm_compute. left. reflexivity.
  - destruct Htie as (l1 & l2 & l3 & E); [reflexivity | reflexivity |].
    assert (Hl : listTickets no_filter two_tickets_same_instant
                 = [new_ticket 1 5 printer_ticket;
                    new_ticket 2 5 printer_ticket])
      by (vm_compute; reflexivity).
    rewrite Hl in E. clear Hl H.
    destruct l1 as [|x1 l1]; simpl in E.
    + inversion E.
    + inversion E as [[Hx E']].
      destruct l1 as [|x2 l1]; simpl in E'.
      * inversion E' as [E'']. destruct l2; discriminate E''.
      * inversion E' as [[Hx' E'']]. destruct l1; discriminate E''.
Qed.

(** ** Comments of a ticket *)
















(** ** Validation *)

Lemma lstrip_length (s : string) :
  (String.length (Text.lstrip s) <= String.length s)%nat.
Proof.
  induction s as [|c r IH]; simpl; [lia|].
  destruct (Text.is_space c); simpl; lia.
Qed.

Lemma rstrip_length (s : string) :
  (String.length (Text.rstrip s) <= String.length s)%nat.
Proof.
  induction s as [|c r IH]; simpl; [lia|].
  destruct (Text.rstrip r) as [|c' r'] eqn:E; simpl in *.
  - destruct (Text.is_space c); simpl; lia.
  - lia.
Qed.

Lemma strip_len (s : string) : Text.len (Text.strip s) <= Text.len s.
Proof.
  unfold Text.len, Text.strip.
  pose proof (rstrip_length (Text.lstrip s)).
  pose proof (lstrip_length s). lia.
Qed.

Lemma textfield_not_empty_short (min_length : Z) (value : string) :
  Text.len (Html.strip_tags value) < min_length ->
  Validators.textfield_not_empty min_length value = [EmptyOrTooShort].
Proof.
  intros Hlen.
  unfold Validators.textfield_not_empty, Validators.non_empty_text_violations.
  pose proof (strip_len (Html.strip_tags value)) as Hs.
  destruct (Text.len (Text.strip (Html.strip_tags value)) <? min_length)
    eqn:E; [reflexivity|].
  apply Z.ltb_ge in E. lia.
Qed.

(** C3: a description whose text, with the tags removed, is shorter than
    20 characters makes [createTicket] fail with [EmptyOrTooShort], and
    the store is left as it was. *)
Theorem createTicket_short_description (now : Z) (d : TicketData)
  (s : Store) :
  Text.len (Html.strip_tags (data_description d)) < 20 ->
  fails_with (fst (createTicket now d s)) EmptyOrTooShort
  /\ snd (createTicket now d s) = s.
Proof.
  intros Hlen.
  assert (Hin : In EmptyOrTooShort
                  (Ticket.clean_fields (new_ticket (ticket_seq s + 1) now d))).
  { unfold Ticket.clean_fields. simpl.
    rewrite (textfield_not_empty_short 20 _ Hlen).
    apply in_or_app. right. left. reflexivity. }
  unfold createTicket.
  destruct (Ticket.clean_fields _) as [|v vs]; [destruct Hin|].
  simpl. split; [exact Hin | reflexivity].
Qed.

Lemma createTicket_short_description_witness :
  fails_with (fst (createTicket 7 terse_ticket empty_store)) EmptyOrTooShort
  /\ snd (createTicket 7 terse_ticket empty_store) = empty_store.
Proof.
  apply createTicket_short_description.
  vm_compute. reflexivity.
Defined.

(** C4: [validateImage] fails with [ImageTooLarge] exactly when the size
    is above 3,145,728 bytes; at exactly 3,145,728 bytes the size rule
    raises nothing, and an image of a permitted type is accepted. *)
Theorem validateImage_size_limit (f : Image) :
  (fails_with (Validators.validateImage f) ImageTooLarge
   <-> image_size f > 3145728)
  /\ (image_size f = 3145728 ->
      ~ fails_with (Validators.validateImage f) ImageTooLarge)
  /\ (image_size f = 3145728 ->
      Text.mem (image_format f) Validators.permitted_image_formats = true ->
      Validators.validateImage f = Ok tt).
Proof.
  assert (Hiff : fails_with (Validators.validateImage f) ImageTooLarge
                 <-> image_size f > 3145728).
  { unfold Validators.validateImage, Validators.validate_image,
      Validators.max_image_size.
    destruct (Text.mem (image_format f) Validators.permitted_image_formats);
      destruct (image_size f >? 3 * 1024 * 1024) eqn:E; simpl;
      rewrite Z.gtb_ltb in E;
      [apply Z.ltb_lt in E | apply Z.ltb_ge in E
      | apply Z.ltb_lt in E | apply Z.ltb_ge in E].
    - split; [lia | intros _; left; reflexivity].
    - split; [intros [] | lia].
    - split; [lia | intros _; right; left; reflexivity].
    - split; [|lia]. intros [H|[]]. discriminate H. }
  split; [exact Hiff|]. split.
  - intros Hsz Hf. apply Hiff in Hf. lia.
  - intros Hsz Hfmt.
    unfold Validators.validateImage, Validators.validate_image,
      Validators.max_image_size.
    rewrite Hfmt, Hsz. reflexivity.
Qed.

(** ** Choice fields *)

Lemma mem_In (x : string) (l : list string) :
  Text.mem x l = true -> In x l.
Proof.
  unfold Text.mem. rewrite existsb_exists.
  intros (y & Hy & E). apply String.eqb_eq in E. subst y. exact Hy.
Qed.

Lemma one_of_nil (choices : list string) (v : string) :
  Validators.one_of choices v = [] -> In v choices.
Proof.
  unfold Validators.one_of.
  destruct (Text.mem v choices) eqn:E; [|discriminate].
  intros _. apply mem_In, E.
Qed.

Lemma clean_fields_choices (x : Ticket.t) :
  Ticket.clean_fields x = [] -> choices_ok x.
Proof.
  unfold Ticket.clean_fields. intros H.
  do 3 (apply app_eq_nil in H; destruct H as [_ H]).
  apply app_eq_nil in H. destruct H as [Hs H].
  apply app_eq_nil in H. destruct H as [Ht Hp].
  repeat split; apply one_of_nil; assumption.
Qed.

Lemma getTicket_In (s : Store) (pk : Z) (row : Ticket.t) :
  getTicket s pk = Ok row -> In row (tickets s) /\ Ticket.id row = pk.
Proof.
  unfold getTicket.
  destruct (find _ (tickets s)) as [r|] eqn:E; [|discriminate].
  intros [= <-]. apply find_some in E. destruct E as [Hin Hid].
  apply Z.eqb_eq in Hid. tauto.
Qed.

Section Saving.
Variable P : Ticket.t -> Prop.

Lemma save_update_fields_Forall fields inst s :
  (forall row, P row ->
     P (fold_left (fun r f => Ticket.write_field inst f r) fields row)) ->
  Forall P (tickets s) ->
  Forall P (tickets (snd (save_update_fields fields inst s))).
Proof.
  intros Hw Hall. unfold save_update_fields.
  destruct (existsb _ (tickets s)); simpl; [|exact Hall].
  rewrite Forall_forall in Hall |- *. intros x Hx.
  apply in_map_iff in Hx. destruct Hx as (row & <- & Hrow).
  destruct (Ticket.id row =? Ticket.id inst); auto.
Qed.

Lemma update_ticket_Forall now pk fields change s :
  (forall row0 row, P row0 -> P row ->
     P (fold_left
          (fun r f =>
             Ticket.write_field (Ticket.with_updated_on now (change row0)) f r)
          (fields ++ [Ticket.f_updated_on]) row)) ->
  Forall P (tickets s) ->
  Forall P (tickets (snd (update_ticket now pk fields change s))).
Proof.
  intros Hw Hall. unfold update_ticket.
  destruct (getTicket s pk) as [row0|e] eqn:E; [|exact Hall].
  apply getTicket_In in E. destruct E as [Hin _].
  assert (H0 : P row0) by (rewrite Forall_forall in Hall; auto).
  pose proof (save_update_fields_Forall (fields ++ [Ticket.f_updated_on])
                (Ticket.with_updated_on now (change row0)) s
                (fun row => Hw row0 row H0) Hall) as H.
  destruct (save_update_fields _ _ s) as [[u|e] s']; exact H.
Qed.

End Saving.

Lemma step_choices_ok (s : Store) (op : Op) :
  Forall choices_ok (tickets s) -> Forall choices_ok (tickets (step s op)).
Proof.
  intros Hall. destruct op; simpl; try exact Hall.
  - (* CreateTicket *)
    unfold createTicket.
    destruct (Ticket.clean_fields _) eqn:E; simpl; [|exact Hall].
    apply Forall_app. split; [exact Hall|].
    constructor; [|constructor]. apply clean_fields_choices, E.
  - (* CreateComment *)
    unfold createComment. destruct (getTicket s ticketId); [|exact Hall].
    destruct (Comment.clean_fields _); exact Hall.
  - (* UpdateStatus *)
    unfold updateStatus.
    destruct (Validators.one_of Ticket.STATUS newStatus) eqn:E;
      [|exact Hall].
    apply one_of_nil in E.
    apply update_ticket_Forall; [|exact Hall].
    intros row0 row _ (Hs & Ht & Hp). repeat split; assumption.
  - unfold assignTeam. destruct (fk_ok _ _); [|exact Hall].
    apply update_ticket_Forall; [|exact Hall].
    intros row0 row _ H. exact H.
  - unfold assignTechnician. destruct (fk_ok _ _); [|exact Hall].
    apply update_ticket_Forall; [|exact Hall].
    intros row0 row _ H. exact H.
  - unfold assignCategory. destruct (fk_ok _ _); [|exact Hall].
    apply update_ticket_Forall; [|exact Hall].
    intros row0 row _ H. exact H.
  - (* TouchUpdatedTimestamp *)
    unfold touchUpdatedTimestamp, set_ticket_updated_now.
    destruct (getTicket s pk) as [row0|e]; [|exact Hall].
    pose proof (save_update_fields_Forall choices_ok [Ticket.f_updated_on]
                  (Ticket.with_updated_on now row0) s
                  (fun row H => H) Hall) as H.
    destruct (save_update_fields _ _ s) as [r s']; exact H.
  - (* DeleteTeam *)
    rewrite Forall_forall in Hall |- *. intros x Hx.
    apply in_map_iff in Hx. destruct Hx as (row & <- & Hrow).
    exact (Hall row Hrow).
  - (* DeleteCategory *)
    rewrite Forall_forall in Hall |- *. intros x Hx.
    apply in_map_iff in Hx. destruct Hx as (row & <- & Hrow).
    exact (Hall row Hrow).
  - (* DeleteUser *)
    rewrite Forall_forall in Hall |- *. intros x Hx.
    apply in_map_iff in Hx. destruct Hx as (row & <- & Hrow).
    apply filter_In in Hrow. exact (Hall row (proj1 Hrow)).
  - (* DeleteTicket *)
    rewrite Forall_forall in Hall |- *. intros x Hx.
    apply filter_In in Hx. exact (Hall x (proj1 Hx)).
Qed.

Lemma run_choices_ok (ops : list Op) (s : Store) :
  Forall choices_ok (tickets s) ->
  Forall choices_ok (tickets (run ops s)).
Proof.
  revert s. induction ops as [|op ops IH]; intros s Hall; [exact Hall|].
  simpl. apply IH, step_choices_ok, Hall.
Qed.

(** C5: whatever operations are run, with whatever strings they are given,
    every persisted ticket has its [status] among open, inprogress, onhold
    and closed, its [type] among request and incident, and its [priority]
    among low, medium and high. *)
Theorem persisted_choices_ok (ops : list Op) (x : Ticket.t) :
  In x (tickets (run ops empty_store)) ->
  In (Ticket.status x) ["open"; "inprogress"; "onhold"; "closed"]
  /\ In (Ticket.type x) ["request"; "incident"]
  /\ In (Ticket.priority x) ["low"; "medium"; "high"].
Proof.
  intros Hx.
  assert (H : Forall choices_ok (tickets (run ops empty_store)))
    by (apply run_choices_ok; constructor).
  rewrite Forall_forall in H. exact (H x Hx).
Qed.

Lemma persisted_choices_ok_witness :
  In "closed" ["open"; "inprogress"; "onhold"; "closed"]
  /\ In "incident" ["request"; "incident"]
  /\ In "low" ["low"; "medium"; "high"].
Proof.
  apply (persisted_choices_ok triage
           (Ticket.with_updated_on 7
              (Ticket.with_status "closed" (new_ticket 1 5 printer_ticket)))).
  vm_compute. left. reflexivity.
Defined.

(** ** Saving single fields *)

Lemma find_map_pk (g : Ticket.t -> Ticket.t) (l : list Ticket.t) (pk : Z) :
  (forall r, Ticket.id (g r) = Ticket.id r) ->
  find (fun r => Ticket.id r =? pk) (map g l)
  = option_map g (find (fun r => Ticket.id r =? pk) l).
Proof.
  intros Hg. induction l as [|x rest IH]; simpl; [reflexivity|].
  rewrite Hg. destruct (Ticket.id x =? pk); [reflexivity | exact IH].
Qed.

Lemma getTicket_exists (s : Store) (pk : Z) (row : Ticket.t) :
  getTicket s pk = Ok row ->
  existsb (fun r => Ticket.id r =? pk) (tickets s) = true.
Proof.
  intros H. apply getTicket_In in H. destruct H as [Hin Hid].
  apply existsb_exists. exists row. split; [exact Hin|].
  apply Z.eqb_eq, Hid.
Qed.

Lemma set_ticket_updated_now_once (now : Z) (self row : Ticket.t)
  (s : Store) :
  getTicket s (Ticket.id self) = Ok row ->
  fst (set_ticket_updated_now now self s)
  = (Ticket.with_updated_on now self, Ok tt)
  /\ getTicket (snd (set_ticket_updated_now now self s)) (Ticket.id self)
     = Ok (Ticket.with_updated_on now row)
  /\ (forall pk, pk <> Ticket.id self ->
        getTicket (snd (set_ticket_updated_now now self s)) pk
        = getTicket s pk)
  /\ same_but_tickets s (snd (set_ticket_updated_now now self s)).
Proof.
  intros Hrow.
  unfold set_ticket_updated_now, save_update_fields.
  change (Ticket.id (Ticket.with_updated_on now self)) with (Ticket.id self).
  rewrite (getTicket_exists _ _ _ Hrow). simpl.
  split; [reflexivity|].
  assert (Hg : forall r,
             Ticket.id (if Ticket.id r =? Ticket.id self
                        then Ticket.with_updated_on now r else r)
             = Ticket.id r).
  { intros r. destruct (Ticket.id r =? Ticket.id self); reflexivity. }
  split; [|split].
  - unfold getTicket in *. simpl.
    rewrite (find_map_pk _ _ _ Hg).
    destruct (find _ (tickets s)) as [r|] eqn:E; [|discriminate].
    injection Hrow as ->. simpl.
    apply find_some in E. destruct E as [_ E]. rewrite E. reflexivity.
  - intros pk Hpk. unfold getTicket. simpl.
    rewrite (find_map_pk _ _ _ Hg).
    destruct (find _ (tickets s)) as [r|] eqn:E; [|reflexivity].
    simpl. apply find_some in E. destruct E as [_ E].
    apply Z.eqb_eq in E.
    destruct (Ticket.id r =? Ticket.id self) eqn:E'; [|reflexivity].
    apply Z.eqb_eq in E'. congruence.
  - unfold same_but_tickets. simpl. tauto.
Qed.

(** C6: [set_ticket_updated_now] writes the current time to the
    [updated_on] of the ticket's row and nothing else: every other field
    of the row keeps its stored value (whatever the instance in memory
    holds), every other ticket and every other table is untouched.
    Applied again at a later time it does the same, so the row ends with
    the later [updated_on] and is otherwise as it was at the start. *)
Theorem set_ticket_updated_now_frame (now now' : Z) (self row : Ticket.t)
  (s : Store) :
  getTicket s (Ticket.id self) = Ok row ->
  now <= now' ->
  let first := set_ticket_updated_now now self s in
  let again := set_ticket_updated_now now' (fst (fst first)) (snd first) in
  snd (fst first) = Ok tt
  /\ getTicket (snd first) (Ticket.id self)
     = Ok (Ticket.with_updated_on now row)
  /\ (forall pk, pk <> Ticket.id self ->
        getTicket (snd first) pk = getTicket s pk)
  /\ same_but_tickets s (snd first)
  /\ snd (fst again) = Ok tt
  /\ getTicket (snd again) (Ticket.id self)
     = Ok (Ticket.with_updated_on now' row)
  /\ (forall pk, pk <> Ticket.id self ->
        getTicket (snd again) pk = getTicket s pk)
  /\ same_but_tickets s (snd again)
  /\ Ticket.updated_on (Ticket.with_updated_on now row)
     <= Ticket.updated_on (Ticket.with_updated_on now' row).
Proof.
  intros Hrow Hlater first again.
  destruct (set_ticket_updated_now_once now self row s Hrow)
    as (Hf & Hget & Hothers & Hframe).
  fold first in Hf, Hget, Hothers, Hframe.
  assert (Hself : fst (fst first) = Ticket.with_updated_on now self)
    by (rewrite Hf; reflexivity).
  assert (Hrow1 : getTicket (snd first) (Ticket.id (fst (fst first)))
                  = Ok (Ticket.with_updated_on now row))
    by (rewrite Hself; exact Hget).
  destruct (set_ticket_updated_now_once now' (fst (fst first)) _ (snd first)
              Hrow1) as (Hf' & Hget' & Hothers' & Hframe').
  fold again in Hf', Hget', Hothers', Hframe'.
  rewrite Hself in Hget', Hothers'. simpl in Hget', Hothers'.
  repeat split.
  - rewrite Hf. reflexivity.
  - exact Hget.
  - exact Hothers.
  - apply Hframe.
  - apply Hframe.
  - apply Hframe.
  - apply Hframe.
  - apply Hframe.
  - apply Hframe.
  - rewrite Hf'. reflexivity.
  - exact Hget'.
  - intros pk Hpk. rewrite (Hothers' pk Hpk). exact (Hothers pk Hpk).
  - unfold same_but_tickets in *. intuition congruence.
  - unfold same_but_tickets in *. intuition congruence.
  - unfold same_but_tickets in *. intuition congruence.
  - unfold same_but_tickets in *. intuition congruence.
  - unfold same_but_tickets in *. intuition congruence.
  - unfold same_but_tickets in *. intuition congruence.
  - simpl. exact Hlater.
Qed.

Lemma set_ticket_updated_now_frame_witness :
  getTicket (snd (set_ticket_updated_now 8 edited_instance one_ticket)) 1
  = Ok (Ticket.with_updated_on 8 (new_ticket 1 5 printer_ticket)).
Proof.
  apply (set_ticket_updated_now_frame 8 9 edited_instance
           (new_ticket 1 5 printer_ticket) one_ticket).
  - vm_compute. reflexivity.
  - lia.
Defined.

(** ** Creation *)



(** ** Deletion *)

(** C8: after a team is deleted, a ticket that was assigned to it is still
    found under its id, with [assigned_team] null and every other field as
    before. *)
Theorem delete_team_sets_null (s : Store) (team pk : Z) (x : Ticket.t) :
  getTicket s pk = Ok x ->
  Ticket.assigned_team x = Some team ->
  getTicket (delete_team team s) pk = Ok (Ticket.with_assigned_team None x).
Proof.
  intros Hx Hteam. unfold getTicket in *. simpl.
  rewrite find_map_pk by reflexivity.
  destruct (find _ (tickets s)) as [r|]; [|discriminate].
  injection Hx as ->. simpl.
  unfold set_null. rewrite Hteam. simpl. rewrite Z.eqb_refl. reflexivity.
Qed.

Lemma delete_team_sets_null_witness :
  getTicket (delete_team 5 assigned_to_network) 1
  = Ok (Ticket.with_assigned_team None
          (Ticket.with_updated_on 6
             (Ticket.with_assigned_team (Some 5)
                (new_ticket 1 5 printer_ticket)))).
Proof.
  apply delete_team_sets_null.
  - vm_compute. reflexivity.
  - reflexivity.
Defined.

(** ** Stripping tags *)
















(** ** Deleting a user *)

Lemma pk_in_In (pk : Z) (pks : list Z) : pk_in pk pks = true <-> In pk pks.
Proof.
  unfold pk_in. rewrite existsb_exists. split.
  - intros (k & Hk & E). apply Z.eqb_eq in E. subst k. exact Hk.
  - intros H. exists pk. split; [exact H | apply Z.eqb_refl].
Qed.

Lemma tickets_authored_by_In (u pk : Z) (s : Store) :
  In pk (tickets_authored_by u s)
  <-> exists x, In x (tickets s) /\ Ticket.author x = u /\ Ticket.id x = pk.
Proof.
  unfold tickets_authored_by. rewrite in_map_iff. split.
  - intros (x & Hid & Hx). apply filter_In in Hx. destruct Hx as [Hx Ha].
    apply Z.eqb_eq in Ha. exists x. tauto.
  - intros (x & Hx & Ha & Hid). exists x. split; [exact Hid|].
    apply filter_In. split; [exact Hx | apply Z.eqb_eq, Ha].
Qed.

(** C10: deleting a user leaves no ticket the user authored and no comment
    attached to such a ticket, whoever wrote the comment; a comment on any
    other ticket stays, with its author set to null if the user wrote it
    and unchanged otherwise. *)
Theorem delete_user_cascade (u : Z) (s : Store) :
  (forall x, In x (tickets (delete_user u s)) -> Ticket.author x <> u)
  /\ (forall c x,
        In c (comments (delete_user u s)) ->
        In x (tickets s) -> Ticket.author x = u ->
        Comment.ticket c <> Ticket.id x)
  /\ (forall c,
        In c (comments s) ->
        (forall x, In x (tickets s) -> Ticket.author x = u ->
                   Comment.ticket c <> Ticket.id x) ->
        (Comment.author c = Some u ->
         In (Comment.with_author None c) (comments (delete_user u s)))
        /\ (Comment.author c <> Some u ->
            In c (comments (delete_user u s)))).
Proof.
  split; [|split].
  - intros x Hx. simpl in Hx.
    apply in_map_iff in Hx. destruct Hx as (r & <- & Hr).
    apply filter_In in Hr. destruct Hr as [_ Ha]. simpl.
    apply negb_true_iff, Z.eqb_neq in Ha. exact Ha.
  - intros c x Hc Hx Ha Hticket. simpl in Hc.
    apply in_map_iff in Hc. destruct Hc as (c0 & <- & Hc0).
    apply filter_In in Hc0. destruct Hc0 as [_ Hkept].
    apply negb_true_iff in Hkept. simpl in Hticket.
    assert (Hgone : pk_in (Comment.ticket c0) (tickets_authored_by u s) = true).
    { apply pk_in_In, tickets_authored_by_In. exists x. auto. }
    congruence.
  - intros c Hc Hother.
    assert (Hkept : In c (filter
                       (fun c => negb (pk_in (Comment.ticket c)
                                         (tickets_authored_by u s)))
                       (comments s))).
    { apply filter_In. split; [exact Hc|]. apply negb_true_iff.
      destruct (pk_in (Comment.ticket c) (tickets_authored_by u s)) eqn:E;
        [|reflexivity].
      apply pk_in_In, tickets_authored_by_In in E.
      destruct E as (x & Hx & Ha & Hid).
      destruct (Hother x Hx Ha). symmetry. exact Hid. }
    split; intros Hauthor; simpl; apply in_map_iff; exists c;
      (split; [|exact Hkept]).
    + unfold set_null. rewrite Hauthor. simpl. rewrite Z.eqb_refl.
      reflexivity.
    + unfold set_null.
      destruct (Comment.author c) as [a|] eqn:Ea; simpl.
      * destruct (a =? u) eqn:E.
        -- apply Z.eqb_eq in E. subst a. destruct (Hauthor eq_refl).
        -- destruct c; simpl in *. rewrite Ea. reflexivity.
      * destruct c; simpl in *. rewrite Ea. reflexivity.
Qed.


(** * Further properties of the models *)

(** ** Looking up rows after rows were removed *)

Lemma find_filter_kept {A : Type} (p q : A -> bool) (l : list A) (x : A) :
  find p l = Some x -> q x = true -> find p (filter q l) = Some x.
Proof.
  induction l as [|y rest IH]; simpl; [discriminate|].
  destruct (p y) eqn:Ep.
  - intros [= ->] Hq. rewrite Hq. simpl. rewrite Ep. reflexivity.
  - intros Hx Hq. destruct (q y); simpl; [rewrite Ep|]; exact (IH Hx Hq).
Qed.

Lemma find_filter_other_pk (pk t : Z) (l : list Ticket.t) :
  t <> pk ->
  find (fun r => Ticket.id r =? t)
    (filter (fun r => negb (Ticket.id r =? pk)) l)
  = find (fun r => Ticket.id r =? t) l.
Proof.
  intros Hne. induction l as [|y rest IH]; simpl; [reflexivity|].
  destruct (Ticket.id y =? pk) eqn:Epk; simpl.
  - apply Z.eqb_eq in Epk.
    destruct (Ticket.id y =? t) eqn:Et; [|exact IH].
    apply Z.eqb_eq in Et. congruence.
  - destruct (Ticket.id y =? t); [reflexivity | exact IH].
Qed.

Lemma find_filter_same_pk (pk : Z) (l : list Ticket.t) :
  find (fun r => Ticket.id r =? pk)
    (filter (fun r => negb (Ticket.id r =? pk)) l) = None.
Proof.
  induction l as [|y rest IH]; simpl; [reflexivity|].
  destruct (Ticket.id y =? pk) eqn:Epk; simpl; [exact IH|].
  rewrite Epk. exact IH.
Qed.

(** ** [on_delete] rules *)

(** X1: once a team is deleted nothing refers to it any more: no ticket
    has it as [assigned_team], no user has it as [team], and it is not
    among the teams; no ticket and no comment is removed. *)
Theorem delete_team_leaves_no_reference (pk : Z) (s : Store) :
  (forall x, In x (tickets (delete_team pk s)) ->
             Ticket.assigned_team x <> Some pk)
  /\ (forall u, In u (users (delete_team pk s)) ->
                CustomUser.team u <> Some pk)
  /\ (forall t, In t (teams (delete_team pk s)) -> Team.id t <> pk)
  /\ map Ticket.id (tickets (delete_team pk s)) = map Ticket.id (tickets s)
  /\ map CustomUser.id (users (delete_team pk s))
     = map CustomUser.id (users s)
  /\ comments (delete_team pk s) = comments s.
Proof.
  assert (Hnull : forall fk, set_null pk fk <> Some pk).
  { intros [k|]; unfold set_null; simpl; [|discriminate].
    destruct (k =? pk) eqn:E; [discriminate|].
    apply Z.eqb_neq in E. congruence. }
  repeat split.
  - intros x Hx. simpl in Hx. apply in_map_iff in Hx.
    destruct Hx as (r & <- & _). apply Hnull.
  - intros u Hu. simpl in Hu. apply in_map_iff in Hu.
    destruct Hu as (r & <- & _). apply Hnull.
  - intros t Ht. simpl in Ht. apply filter_In in Ht.
    destruct Ht as [_ Ht]. apply negb_true_iff, Z.eqb_neq in Ht. exact Ht.
  - simpl. rewrite map_map. reflexivity.
  - simpl. rewrite map_map. reflexivity.
Qed.

(** X2: after a category is deleted every ticket is still found under its
    id; a ticket that was filed under the category has [category] null
    and is otherwise as before, any other ticket is returned unchanged. *)
Theorem delete_category_sets_null (s : Store) (cat pk : Z) (x : Ticket.t) :
  getTicket s pk = Ok x ->
  (Ticket.category x = Some cat ->
   getTicket (delete_category cat s) pk = Ok (Ticket.with_category None x))
  /\ (Ticket.category x <> Some cat ->
      getTicket (delete_category cat s) pk = Ok x).
Proof.
  intros Hx.
  assert (Hget : getTicket (delete_category cat s) pk
                 = Ok (Ticket.with_category
                         (set_null cat (Ticket.category x)) x)).
  { unfold getTicket in *. simpl. rewrite find_map_pk by reflexivity.
    destruct (find _ (tickets s)) as [r|]; [|discriminate].
    injection Hx as ->. reflexivity. }
  rewrite Hget. unfold set_null. split; intros Hcat.
  - rewrite Hcat. simpl. rewrite Z.eqb_refl. reflexivity.
  - destruct (Ticket.category x) as [k|] eqn:Ek; simpl.
    + destruct (k =? cat) eqn:E.
      * apply Z.eqb_eq in E. congruence.
      * destruct x; simpl in *. rewrite Ek. reflexivity.
    + destruct x; simpl in *. rewrite Ek. reflexivity.
Qed.

Lemma delete_category_sets_null_witness :
  getTicket (delete_category 3 in_hand) 1
  = Ok (Ticket.with_category None ticket_in_hand).
Proof.
  apply (delete_category_sets_null in_hand 3 1 ticket_in_hand).
  - vm_compute. reflexivity.
  - reflexivity.
Defined.

(** X3: when a user is deleted, a ticket somebody else authored is still
    found under its id with every field as before, except that the user
    is no longer its [assigned_technician]. *)
Theorem delete_user_keeps_assigned_tickets (s : Store) (u pk : Z)
  (x : Ticket.t) :
  getTicket s pk = Ok x ->
  Ticket.author x <> u ->
  (Ticket.assigned_technician x = Some u ->
   getTicket (delete_user u s) pk
   = Ok (Ticket.with_assigned_technician None x))
  /\ (Ticket.assigned_technician x <> Some u ->
      getTicket (delete_user u s) pk = Ok x).
Proof.
  intros Hx Hauthor.
  assert (Hget : getTicket (delete_user u s) pk
                 = Ok (Ticket.with_assigned_technician
                         (set_null u (Ticket.assigned_technician x)) x)).
  { unfold getTicket in *. simpl. rewrite find_map_pk by reflexivity.
    destruct (find _ (tickets s)) as [r|] eqn:E; [|discriminate].
    injection Hx as ->.
    rewrite (find_filter_kept _ _ _ _ E); [reflexivity|].
    apply negb_true_iff, Z.eqb_neq. exact Hauthor. }
  rewrite Hget. unfold set_null. split; intros Htech.
  - rewrite Htech. simpl. rewrite Z.eqb_refl. reflexivity.
  - destruct (Ticket.assigned_technician x) as [k|] eqn:Ek; simpl.
    + destruct (k =? u) eqn:E.
      * apply Z.eqb_eq in E. congruence.
      * destruct x; simpl in *. rewrite Ek. reflexivity.
    + destruct x; simpl in *. rewrite Ek. reflexivity.
Qed.

Lemma delete_user_keeps_assigned_tickets_witness :
  getTicket (delete_user 2 in_hand) 1
  = Ok (Ticket.with_assigned_technician None ticket_in_hand).
Proof.
  apply (delete_user_keeps_assigned_tickets in_hand 2 1 ticket_in_hand).
  - vm_compute. reflexivity.
  - vm_compute. discriminate.
  - reflexivity.
Defined.

(** X4: deleting a ticket removes it and every comment attached to it;
    every other ticket is found as before and the comments of every other
    ticket are listed as before. *)
Theorem delete_ticket_cascade (pk : Z) (s : Store) :
  getTicket (delete_ticket pk s) pk = Err NotFoundError
  /\ listComments (delete_ticket pk s) pk = []
  /\ (forall t, t <> pk ->
        getTicket (delete_ticket pk s) t = getTicket s t
        /\ listComments (delete_ticket pk s) t = listComments s t).
Proof.
  split; [|split].
  - unfold getTicket. simpl. rewrite find_filter_same_pk. reflexivity.
  - unfold listComments, Comment.Meta_ordering. rewrite order_by_nil. simpl.
    induction (comments s) as [|c rest IH]; simpl; [reflexivity|].
    destruct (Comment.ticket c =? pk) eqn:E; simpl; [exact IH|].
    rewrite E. exact IH.
  - intros t Hne. split.
    + unfold getTicket. simpl. rewrite (find_filter_other_pk _ _ _ Hne).
      reflexivity.
    + unfold listComments, Comment.Meta_ordering. rewrite !order_by_nil.
      simpl. induction (comments s) as [|c rest IH]; simpl; [reflexivity|].
      destruct (Comment.ticket c =? pk) eqn:E; simpl.
      * apply Z.eqb_eq in E.
        destruct (Comment.ticket c =? t) eqn:Et; [|exact IH].
        apply Z.eqb_eq in Et. congruence.
      * destruct (Comment.ticket c =? t); [f_equal|]; exact IH.
Qed.

(** ** What an update leaves alone *)

Lemma write_field_id (inst : Ticket.t) (f : Ticket.field) (row : Ticket.t) :
  Ticket.id (Ticket.write_field inst f row) = Ticket.id row.
Proof. destruct f; reflexivity. Qed.

Lemma write_fields_id (inst : Ticket.t) (fields : list Ticket.field)
  (row : Ticket.t) :
  Ticket.id (fold_left (fun r f => Ticket.write_field inst f r) fields row)
  = Ticket.id row.
Proof.
  revert row. induction fields as [|f rest IH]; intros row; simpl;
    [reflexivity|].
  rewrite IH. apply write_field_id.
Qed.

Lemma keeps_rows_refl (s : Store) : keeps_rows s s.
Proof. unfold keeps_rows, same_but_tickets. tauto. Qed.

Lemma save_update_fields_keeps_rows fields inst s :
  keeps_rows s (snd (save_update_fields fields inst s)).
Proof.
  unfold save_update_fields.
  destruct (existsb _ (tickets s)); simpl; [|apply keeps_rows_refl].
  split; [unfold same_but_tickets; simpl; tauto|].
  simpl. rewrite map_map. apply map_ext. intros row.
  destruct (Ticket.id row =? Ticket.id inst); [|reflexivity].
  apply write_fields_id.
Qed.

Lemma update_ticket_keeps_rows now pk fields change s :
  keeps_rows s (snd (update_ticket now pk fields change s)).
Proof.
  unfold update_ticket.
  destruct (getTicket s pk) as [row|e]; [|apply keeps_rows_refl].
  pose proof (save_update_fields_keeps_rows (fields ++ [Ticket.f_updated_on])
                (Ticket.with_updated_on now (change row)) s) as H.
  destruct (save_update_fields _ _ s) as [[u|e] s']; exact H.
Qed.

Lemma touchUpdatedTimestamp_keeps_rows now pk s :
  keeps_rows s (snd (touchUpdatedTimestamp now pk s)).
Proof.
  unfold touchUpdatedTimestamp, set_ticket_updated_now.
  destruct (getTicket s pk) as [row|e]; [|apply keeps_rows_refl].
  pose proof (save_update_fields_keeps_rows [Ticket.f_updated_on]
                (Ticket.with_updated_on now row) s) as H.
  destruct (save_update_fields _ _ s) as [r s']; exact H.
Qed.

(** The staff updates write into rows; they add and remove none. *)
Lemma step_update_keeps_rows (s : Store) (op : Op) :
  match op with
  | UpdateStatus _ _ _ | AssignTeam _ _ _ | AssignTechnician _ _ _
  | AssignCategory _ _ _ | TouchUpdatedTimestamp _ _ =>
      keeps_rows s (step s op)
  | _ => True
  end.
Proof.
  destruct op; simpl; trivial.
  - unfold updateStatus. destruct (Validators.one_of _ _);
      [apply update_ticket_keeps_rows | apply keeps_rows_refl].
  - unfold assignTeam. destruct (fk_ok _ _);
      [apply update_ticket_keeps_rows | apply keeps_rows_refl].
  - unfold assignTechnician. destruct (fk_ok _ _);
      [apply update_ticket_keeps_rows | apply keeps_rows_refl].
  - unfold assignCategory. destruct (fk_ok _ _);
      [apply update_ticket_keeps_rows | apply keeps_rows_refl].
  - apply touchUpdatedTimestamp_keeps_rows.
Qed.

Lemma keeps_rows_no_orphans (s s' : Store) :
  keeps_rows s s' -> no_orphans s -> no_orphans s'.
Proof.
  intros [(_ & _ & _ & Hc & _) Hids] H c Hin.
  rewrite Hids. apply H. rewrite <- Hc. exact Hin.
Qed.

Lemma keeps_rows_keys_fresh (s s' : Store) :
  keeps_rows s s' -> keys_fresh s -> keys_fresh s'.
Proof.
  intros [(_ & _ & _ & _ & Hseq & _) Hids] [Hnd Hle].
  split; [rewrite Hids; exact Hnd|].
  rewrite Hseq.
  rewrite Forall_forall in Hle |- *. intros x Hx.
  assert (Hin : In (Ticket.id x) (map Ticket.id (tickets s)))
    by (rewrite <- Hids; apply in_map, Hx).
  apply in_map_iff in Hin. destruct Hin as (y & <- & Hy). exact (Hle y Hy).
Qed.

(** ** Comments and their tickets *)

Lemma step_no_orphans (s : Store) (op : Op) :
  no_orphans s -> no_orphans (step s op).
Proof.
  intros H.
  pose proof (step_update_keeps_rows s op) as Hupd.
  destruct op; try exact (keeps_rows_no_orphans _ _ Hupd H);
    simpl; try exact H.
  - (* CreateTicket *)
    unfold createTicket. destruct (Ticket.clean_fields _); [|exact H].
    intros c Hc. simpl in *. rewrite map_app. apply in_or_app. left.
    exact (H c Hc).
  - (* CreateComment *)
    unfold createComment.
    destruct (getTicket s ticketId) as [row|e] eqn:E; [|exact H].
    destruct (Comment.clean_fields _); [|exact H].
    intros c Hc. simpl in *. apply in_app_or in Hc.
    destruct Hc as [Hc|[<-|[]]]; [exact (H c Hc)|]. simpl.
    apply getTicket_In in E. destruct E as [Hin <-]. apply in_map, Hin.
  - (* DeleteTeam *)
    intros c Hc. simpl in *. rewrite map_map. exact (H c Hc).
  - (* DeleteCategory *)
    intros c Hc. simpl in *. rewrite map_map. exact (H c Hc).
  - (* DeleteUser *)
    intros c Hc. simpl in *.
    apply in_map_iff in Hc. destruct Hc as (c0 & <- & Hc0).
    apply filter_In in Hc0. destruct Hc0 as [Hc0 Hkept]. simpl.
    specialize (H c0 Hc0). apply in_map_iff in H.
    destruct H as (x & Hid & Hx).
    rewrite map_map. simpl. apply in_map_iff. exists x.
    split; [exact Hid|]. apply filter_In. split; [exact Hx|].
    apply negb_true_iff. apply negb_true_iff in Hkept.
    destruct (Ticket.author x =? pk) eqn:Ea; [|reflexivity].
    apply Z.eqb_eq in Ea.
    assert (Hgone : pk_in (Comment.ticket c0) (tickets_authored_by pk s)
                    = true).
    { apply pk_in_In, tickets_authored_by_In. exists x. auto. }
    congruence.
  - (* DeleteTicket *)
    intros c Hc. simpl in *.
    apply filter_In in Hc. destruct Hc as [Hc Hkept].
    specialize (H c Hc). apply in_map_iff in H.
    destruct H as (x & Hid & Hx).
    apply in_map_iff. exists x. split; [exact Hid|].
    apply filter_In. split; [exact Hx|]. rewrite Hid. exact Hkept.
Qed.

Lemma run_no_orphans (ops : list Op) (s : Store) :
  no_orphans s -> no_orphans (run ops s).
Proof.
  revert s. induction ops as [|op ops IH]; intros s H; [exact H|].
  simpl. apply IH, step_no_orphans, H.
Qed.

Lemma getTicket_of_key (s : Store) (pk : Z) :
  In pk (map Ticket.id (tickets s)) -> exists x, getTicket s pk = Ok x.
Proof.
  intros Hin. apply in_map_iff in Hin. destruct Hin as (y & Hid & Hy).
  unfold getTicket.
  destruct (find (fun row => Ticket.id row =? pk) (tickets s)) as [x|] eqn:E.
  - exists x. reflexivity.
  - pose proof (find_none _ _ E y Hy) as Hf. simpl in Hf.
    apply Z.eqb_neq in Hf. contradiction.
Qed.

(** X5: whatever operations are run, tickets and users deleted among
    them, every comment in the store belongs to a ticket that is in the
    store: [getTicket] finds the ticket of every comment. *)
Theorem comment_ticket_exists (ops : list Op) (c : Comment.t) :
  In c (comments (run ops empty_store)) ->
  exists x, getTicket (run ops empty_store) (Comment.ticket c) = Ok x.
Proof.
  intros Hc. apply getTicket_of_key.
  apply (run_no_orphans ops empty_store); [|exact Hc].
  intros c' [].
Qed.

Lemma comment_ticket_exists_witness :
  exists x, getTicket (run conversation empty_store) 1 = Ok x.
Proof.
  apply (comment_ticket_exists conversation
           {| Comment.id := 1; Comment.ticket := 1; Comment.author := Some 2;
              Comment.body := "Have you tried turning it off and on?";
              Comment.created_on := 5 |}).
  vm_compute. left. reflexivity.
Defined.

(** ** Primary keys *)

(** Removing rows keeps the remaining keys distinct. *)
Lemma filtered_keys_distinct (keep : Ticket.t -> bool)
  (rows : list Ticket.t) :
  NoDup (map Ticket.id rows) -> NoDup (map Ticket.id (filter keep rows)).
Proof.
  intros Hdistinct. induction rows as [|row rows IH]; [constructor|].
  simpl in Hdistinct. apply NoDup_cons_iff in Hdistinct.
  destruct Hdistinct as [Hfresh Hrest]. simpl.
  destruct (keep row); [|exact (IH Hrest)].
  simpl. apply NoDup_cons; [|exact (IH Hrest)].
  intros Hin. apply Hfresh.
  apply in_map_iff in Hin. destruct Hin as (other & Hid & Hother).
  apply filter_In in Hother. rewrite <- Hid. apply in_map. tauto.
Qed.

(** Rows with distinct keys are told apart by their key. *)
Lemma distinct_keys_same_row (rows : list Ticket.t) (x y : Ticket.t) :
  NoDup (map Ticket.id rows) ->
  In x rows -> In y rows -> Ticket.id x = Ticket.id y -> x = y.
Proof.
  intros Hdistinct. induction rows as [|row rows IH]; intros Hx Hy E;
    [destruct Hx|].
  simpl in Hdistinct. apply NoDup_cons_iff in Hdistinct.
  destruct Hdistinct as [Hfresh Hrest].
  destruct Hx as [->|Hx]; destruct Hy as [->|Hy].
  - reflexivity.
  - destruct Hfresh. rewrite E. apply in_map, Hy.
  - destruct Hfresh. rewrite <- E. apply in_map, Hx.
  - exact (IH Hrest Hx Hy E).
Qed.

Lemma keys_fresh_sub (s : Store) (rows : list Ticket.t) (seq : Z) :
  keys_fresh s ->
  ticket_seq s <= seq ->
  NoDup (map Ticket.id rows) ->
  (forall pk, In pk (map Ticket.id rows) ->
              In pk (map Ticket.id (tickets s))) ->
  NoDup (map Ticket.id rows) /\ Forall (fun x => Ticket.id x <= seq) rows.
Proof.
  intros [_ Hle] Hseq Hnd Hsub. split; [exact Hnd|].
  rewrite Forall_forall in Hle |- *. intros x Hx.
  specialize (Hsub (Ticket.id x) (in_map _ _ _ Hx)).
  apply in_map_iff in Hsub. destruct Hsub as (y & Hid & Hy).
  specialize (Hle y Hy). simpl in Hle. lia.
Qed.

Lemma step_keys_fresh (s : Store) (op : Op) :
  keys_fresh s -> keys_fresh (step s op).
Proof.
  intros H.
  pose proof (step_update_keeps_rows s op) as Hupd.
  destruct op; try exact (keeps_rows_keys_fresh _ _ Hupd H);
    simpl; try exact H.
  - (* CreateTicket *)
    unfold createTicket. destruct (Ticket.clean_fields _); [|exact H].
    destruct H as [Hnd Hle]. unfold keys_fresh. simpl. split.
    + rewrite map_app. simpl. apply NoDup_app. repeat split.
      * exact Hnd.
      * constructor; [intros []|constructor].
      * intros pk Hpk [<-|[]].
        apply in_map_iff in Hpk. destruct Hpk as (y & Hid & Hy).
        rewrite Forall_forall in Hle. specialize (Hle y Hy).
        simpl in Hle. lia.
    + apply Forall_app. split.
      * rewrite Forall_forall in Hle |- *. intros y Hy.
        specialize (Hle y Hy). simpl in Hle. lia.
      * constructor; [simpl; lia | constructor].
  - (* CreateComment *)
    unfold createComment. destruct (getTicket s ticketId); [|exact H].
    destruct (Comment.clean_fields _); exact H.
  - (* DeleteTeam *)
    apply (keys_fresh_sub s); simpl; try rewrite map_map; simpl;
      [exact H | lia | exact (proj1 H) | tauto].
  - (* DeleteCategory *)
    apply (keys_fresh_sub s); simpl; try rewrite map_map; simpl;
      [exact H | lia | exact (proj1 H) | tauto].
  - (* DeleteUser *)
    apply (keys_fresh_sub s); simpl; try rewrite map_map; simpl.
    + exact H.
    + lia.
    + apply filtered_keys_distinct, H.
    + intros k Hk. apply in_map_iff in Hk. destruct Hk as (y & Hid & Hy).
      apply filter_In in Hy. apply in_map_iff. exists y. tauto.
  - (* DeleteTicket *)
    apply (keys_fresh_sub s); simpl.
    + exact H.
    + lia.
    + apply filtered_keys_distinct, H.
    + intros k Hk. apply in_map_iff in Hk. destruct Hk as (y & Hid & Hy).
      apply filter_In in Hy. apply in_map_iff. exists y. tauto.
Qed.

Lemma run_keys_fresh (ops : list Op) (s : Store) :
  keys_fresh s -> keys_fresh (run ops s).
Proof.
  revert s. induction ops as [|op ops IH]; intros s H; [exact H|].
  simpl. apply IH, step_keys_fresh, H.
Qed.

Lemma empty_store_keys_fresh : keys_fresh empty_store.
Proof. split; constructor. Qed.

(** X6: whatever operations are run, deletions among them, no two tickets
    in the store share a primary key. *)
Theorem ticket_keys_unique (ops : list Op) (x y : Ticket.t) :
  In x (tickets (run ops empty_store)) ->
  In y (tickets (run ops empty_store)) ->
  Ticket.id x = Ticket.id y ->
  x = y.
Proof.
  intros Hx Hy E.
  destruct (run_keys_fresh ops empty_store empty_store_keys_fresh)
    as [Hnd _].
  exact (distinct_keys_same_row _ x y Hnd Hx Hy E).
Qed.

Lemma ticket_keys_unique_witness :
  new_ticket 1 5 printer_ticket = new_ticket 1 5 printer_ticket.
Proof.
  apply (ticket_keys_unique
           [CreateTicket 5 printer_ticket; CreateTicket 9 printer_ticket]).
  - vm_compute. left. reflexivity.
  - vm_compute. left. reflexivity.
  - reflexivity.
Defined.

Lemma find_app_miss {A : Type} (p : A -> bool) (l r : list A) :
  find p l = None -> find p (l ++ r) = find p r.
Proof.
  induction l as [|x rest IH]; simpl; [reflexivity|].
  destruct (p x); [discriminate | exact IH].
Qed.

Lemma find_app_hit {A : Type} (p : A -> bool) (l r : list A) (x : A) :
  find p l = Some x -> find p (l ++ r) = Some x.
Proof.
  induction l as [|y rest IH]; simpl; [discriminate|].
  destruct (p y); [trivial | exact IH].
Qed.

(** X7: in a store the operations have built, a ticket just created is
    what [getTicket] returns under its id; that id was not in use before,
    even if tickets were deleted meanwhile, and every ticket that was
    there is still returned as before. *)
Theorem createTicket_then_getTicket (ops : list Op) (now : Z)
  (d : TicketData) (x : Ticket.t) :
  fst (createTicket now d (run ops empty_store)) = Ok x ->
  getTicket (run ops empty_store) (Ticket.id x) = Err NotFoundError
  /\ getTicket (snd (createTicket now d (run ops empty_store))) (Ticket.id x)
     = Ok x
  /\ (forall pk y,
        getTicket (run ops empty_store) pk = Ok y ->
        getTicket (snd (createTicket now d (run ops empty_store))) pk = Ok y).
Proof.
  destruct (run_keys_fresh ops empty_store empty_store_keys_fresh)
    as [_ Hle].
  set (s := run ops empty_store) in *.
  unfold createTicket.
  destruct (Ticket.clean_fields _); simpl; [|discriminate].
  intros [= <-]. simpl.
  assert (Hmiss : find (fun row => Ticket.id row =? ticket_seq s + 1)
                    (tickets s) = None).
  { destruct (find _ (tickets s)) as [y|] eqn:E; [|reflexivity].
    apply find_some in E. destruct E as [Hy Hid].
    apply Z.eqb_eq in Hid. rewrite Forall_forall in Hle.
    specialize (Hle y Hy). simpl in Hle. lia. }
  unfold getTicket. simpl. split; [rewrite Hmiss; reflexivity|]. split.
  - rewrite (find_app_miss _ _ _ Hmiss). simpl. rewrite Z.eqb_refl.
    reflexivity.
  - intros pk y Hy.
    destruct (find (fun row => Ticket.id row =? pk) (tickets s)) as [r|] eqn:E;
      [|discriminate].
    rewrite (find_app_hit _ _ _ _ E). exact Hy.
Qed.

Lemma createTicket_then_getTicket_witness :
  getTicket (snd (createTicket 9 printer_ticket
                    (run [CreateTicket 5 printer_ticket; DeleteTicket 1]
                       empty_store))) 2
  = Ok (new_ticket 2 9 printer_ticket).
Proof.
  refine (proj1 (proj2 (createTicket_then_getTicket
                          [CreateTicket 5 printer_ticket; DeleteTicket 1]
                          9 printer_ticket
                          (new_ticket 2 9 printer_ticket) _))).
  vm_compute. reflexivity.
Defined.

(** ** The default listing after an update *)

Lemma listTickets_no_filter_In (s : Store) (x : Ticket.t) :
  In x (listTickets no_filter s) <-> In x (tickets s).
Proof.
  unfold listTickets. rewrite order_by_In, filter_In.
  unfold matches, no_filter. simpl. tauto.
Qed.

Lemma set_ticket_updated_now_tickets (now : Z) (self row : Ticket.t)
  (s : Store) :
  getTicket s (Ticket.id self) = Ok row ->
  tickets (snd (set_ticket_updated_now now self s))
  = map (fun r => if Ticket.id r =? Ticket.id self
                  then Ticket.with_updated_on now r else r)
      (tickets s).
Proof.
  intros Hrow. unfold set_ticket_updated_now, save_update_fields.
  change (Ticket.id (Ticket.with_updated_on now self)) with (Ticket.id self).
  rewrite (getTicket_exists _ _ _ Hrow). reflexivity.
Qed.

(** X8: a ticket whose [updated_on] is set by [set_ticket_updated_now] to
    a time later than the [updated_on] of every ticket in the store heads
    the default listing. *)
Theorem set_ticket_updated_now_lists_first (now : Z) (self row : Ticket.t)
  (s : Store) :
  getTicket s (Ticket.id self) = Ok row ->
  (forall x, In x (tickets s) -> Ticket.updated_on x < now) ->
  exists h rest,
    listTickets no_filter (snd (set_ticket_updated_now now self s))
    = h :: rest
    /\ Ticket.id h = Ticket.id self
    /\ Ticket.updated_on h = now.
Proof.
  intros Hrow Hold.
  set (s' := snd (set_ticket_updated_now now self s)).
  assert (Hrows := set_ticket_updated_now_tickets now self row s Hrow).
  fold s' in Hrows.
  assert (Hsorted : StronglySorted (descending Ticket.updated_on)
                      (listTickets no_filter s'))
    by apply order_by_desc_sorted.
  apply getTicket_In in Hrow. destruct Hrow as [Hin Hid].
  assert (Htouched : In (Ticket.with_updated_on now row)
                       (listTickets no_filter s')).
  { apply listTickets_no_filter_In. rewrite Hrows.
    apply in_map_iff. exists row. split; [|exact Hin].
    rewrite Hid, Z.eqb_refl. reflexivity. }
  destruct (listTickets no_filter s') as [|h rest] eqn:El;
    [destruct Htouched|].
  exists h, rest. split; [reflexivity|].
  assert (Hh : In h (tickets s')).
  { apply listTickets_no_filter_In. rewrite El. left. reflexivity. }
  assert (Hnow : now <= Ticket.updated_on h).
  { apply StronglySorted_inv in Hsorted. destruct Hsorted as [_ Hall].
    destruct Htouched as [->|Hrest]; [simpl; lia|].
    rewrite Forall_forall in Hall. exact (Hall _ Hrest). }
  rewrite Hrows in Hh. apply in_map_iff in Hh.
  destruct Hh as (r0 & <- & Hr0).
  destruct (Ticket.id r0 =? Ticket.id self) eqn:E.
  - apply Z.eqb_eq in E. simpl. tauto.
  - specialize (Hold r0 Hr0). lia.
Qed.

Lemma set_ticket_updated_now_lists_first_witness :
  exists h rest,
    listTickets no_filter
      (snd (set_ticket_updated_now 12 (new_ticket 1 5 printer_ticket)
              older_and_newer))
    = h :: rest
    /\ Ticket.id h = 1
    /\ Ticket.updated_on h = 12.
Proof.
  apply (set_ticket_updated_now_lists_first 12
           (new_ticket 1 5 printer_ticket) (new_ticket 1 5 printer_ticket)
           older_and_newer).
  - vm_compute. reflexivity.
  - intros x Hx. vm_compute in Hx.
    destruct Hx as [<-|[<-|[]]]; vm_compute; reflexivity.
Defined.

(** ** Updates of different tickets *)






(** ** What every stored ticket satisfies *)

Section StoredTickets.
Variable P : Ticket.t -> Prop.
Variable op : Op.

Hypothesis P_created : forall pk now d,
  op_time op = Some now ->
  Ticket.clean_fields (new_ticket pk now d) = [] ->
  P (new_ticket pk now d).
Hypothesis P_updated_on : forall now x,
  op_time op = Some now -> P x -> P (Ticket.with_updated_on now x).
Hypothesis P_status : forall v x,
  In v Ticket.STATUS -> P x -> P (Ticket.with_status v x).
Hypothesis P_category : forall v x, P x -> P (Ticket.with_category v x).
Hypothesis P_assigned_team : forall v x,
  P x -> P (Ticket.with_assigned_team v x).
Hypothesis P_assigned_technician : forall v x,
  P x -> P (Ticket.with_assigned_technician v x).

Lemma step_Forall (s : Store) :
  Forall P (tickets s) -> Forall P (tickets (step s op)).
Proof.
  intros Hall. destruct op eqn:Eop; simpl; try exact Hall.
  - (* CreateTicket *)
    unfold createTicket.
    destruct (Ticket.clean_fields _) eqn:E; simpl; [|exact Hall].
    apply Forall_app. split; [exact Hall|].
    constructor; [|constructor]. apply P_created; [reflexivity | exact E].
  - (* CreateComment *)
    unfold createComment. destruct (getTicket s ticketId); [|exact Hall].
    destruct (Comment.clean_fields _); exact Hall.
  - (* UpdateStatus *)
    unfold updateStatus.
    destruct (Validators.one_of Ticket.STATUS newStatus) eqn:E;
      [|exact Hall].
    apply one_of_nil in E.
    apply update_ticket_Forall; [|exact Hall].
    intros row0 row _ Hrow. simpl.
    apply (P_updated_on now); [reflexivity|]. apply P_status; assumption.
  - unfold assignTeam. destruct (fk_ok _ _); [|exact Hall].
    apply update_ticket_Forall; [|exact Hall].
    intros row0 row _ Hrow. simpl.
    apply (P_updated_on now); [reflexivity|]. apply P_assigned_team, Hrow.
  - unfold assignTechnician. destruct (fk_ok _ _); [|exact Hall].
    apply update_ticket_Forall; [|exact Hall].
    intros row0 row _ Hrow. simpl.
    apply (P_updated_on now); [reflexivity|].
    apply P_assigned_technician, Hrow.
  - unfold assignCategory. destruct (fk_ok _ _); [|exact Hall].
    apply update_ticket_Forall; [|exact Hall].
    intros row0 row _ Hrow. simpl.
    apply (P_updated_on now); [reflexivity|]. apply P_category, Hrow.
  - (* TouchUpdatedTimestamp *)
    unfold touchUpdatedTimestamp.
    destruct (getTicket s pk) as [row0|e]; [|exact Hall].
    unfold set_ticket_updated_now.
    assert (H : Forall P (tickets (snd (save_update_fields
                  [Ticket.f_updated_on] (Ticket.with_updated_on now row0) s)))).
    { apply save_update_fields_Forall; [|exact Hall].
      intros row Hrow. simpl. apply (P_updated_on now); [reflexivity|].
      exact Hrow. }
    destruct (save_update_fields _ _ s) as [r s']; exact H.
  - (* DeleteTeam *)
    rewrite Forall_forall in Hall |- *. intros x Hx.
    apply in_map_iff in Hx. destruct Hx as (row & <- & Hrow).
    apply P_assigned_team, Hall, Hrow.
  - (* DeleteCategory *)
    rewrite Forall_forall in Hall |- *. intros x Hx.
    apply in_map_iff in Hx. destruct Hx as (row & <- & Hrow).
    apply P_category, Hall, Hrow.
  - (* DeleteUser *)
    rewrite Forall_forall in Hall |- *. intros x Hx.
    apply in_map_iff in Hx. destruct Hx as (row & <- & Hrow).
    apply filter_In in Hrow. apply P_assigned_technician, Hall, Hrow.
  - (* DeleteTicket *)
    rewrite Forall_forall in Hall |- *. intros x Hx.
    apply filter_In in Hx. exact (Hall x (proj1 Hx)).
Qed.

End StoredTickets.

Lemma clean_fields_title (x : Ticket.t) :
  Ticket.clean_fields x = [] -> 10 <= Text.len (Ticket.title x) <= 50.
Proof.
  unfold Ticket.clean_fields. intros H.
  apply app_eq_nil in H. destruct H as [H _].
  unfold Validators.length_between in H.
  destruct (Text.len (Ticket.title x) <? 10) eqn:Elo; [discriminate|].
  destruct (50 <? Text.len (Ticket.title x)) eqn:Ehi; [discriminate|].
  apply Z.ltb_ge in Elo, Ehi. lia.
Qed.

(** X10: whatever operations are run, the title of every ticket in the
    store has at least 10 and at most 50 characters. *)
Theorem persisted_title_length (ops : list Op) (x : Ticket.t) :
  In x (tickets (run ops empty_store)) ->
  10 <= Text.len (Ticket.title x) <= 50.
Proof.
  assert (H : forall ops s,
             Forall (fun x => 10 <= Text.len (Ticket.title x) <= 50)
               (tickets s) ->
             Forall (fun x => 10 <= Text.len (Ticket.title x) <= 50)
               (tickets (run ops s))).
  { clear. induction ops as [|op ops IH]; intros s Hs; [exact Hs|].
    simpl. apply IH. apply step_Forall; try exact Hs; try (intros; assumption).
    intros pk now d _ Hclean. exact (clean_fields_title _ Hclean). }
  intros Hx. specialize (H ops empty_store (Forall_nil _)).
  rewrite Forall_forall in H. exact (H x Hx).
Qed.

Lemma persisted_title_length_witness :
  10 <= Text.len (Ticket.title (new_ticket 1 5 printer_ticket)) <= 50.
Proof.
  apply (persisted_title_length [CreateTicket 5 printer_ticket]).
  vm_compute. left. reflexivity.
Defined.

(** X11: whatever operations are run, the status of every ticket in the
    store is one of the choices migration 0003 installs and fits its
    [max_length] of 10, and its type and priority fit the [max_length] of
    8 and 6 the model declares for them. *)
Theorem persisted_choices_fit_columns (ops : list Op) (x : Ticket.t) :
  In x (tickets (run ops empty_store)) ->
  fits Migration_0003_alter_ticket_status (Ticket.status x)
  /\ fits Ticket_status (Ticket.status x)
  /\ fits Ticket_type (Ticket.type x)
  /\ fits Ticket_priority (Ticket.priority x).
Proof.
  intros Hx.
  assert (H : Forall choices_ok (tickets (run ops empty_store)))
    by (apply run_choices_ok; constructor).
  rewrite Forall_forall in H. destruct (H x Hx) as (Hs & Ht & Hp).
  unfold fits. simpl in *.
  repeat split; try assumption.
  - repeat (destruct Hs as [<-|Hs]; [vm_compute; discriminate|]).
    destruct Hs.
  - repeat (destruct Hs as [<-|Hs]; [vm_compute; discriminate|]).
    destruct Hs.
  - repeat (destruct Ht as [<-|Ht]; [vm_compute; discriminate|]).
    destruct Ht.
  - repeat (destruct Hp as [<-|Hp]; [vm_compute; discriminate|]).
    destruct Hp.
Qed.

Lemma persisted_choices_fit_columns_witness :
  fits Migration_0003_alter_ticket_status "inprogress"
  /\ fits Ticket_status "inprogress"
  /\ fits Ticket_type "incident"
  /\ fits Ticket_priority "low".
Proof.
  apply (persisted_choices_fit_columns
           [CreateTicket 5 printer_ticket; UpdateStatus 6 1 "inprogress"]
           (Ticket.with_updated_on 6
              (Ticket.with_status "inprogress"
                 (new_ticket 1 5 printer_ticket)))).
  vm_compute. left. reflexivity.
Defined.

(** ** Creation and update stamps *)

Lemma run_stamps_ordered (ops : list Op) (s : Store) :
  StronglySorted Z.le (clock_readings ops) ->
  Forall (fun x => Ticket.created_on x <= Ticket.updated_on x
                   /\ Forall (fun t => Ticket.updated_on x <= t)
                        (clock_readings ops))
    (tickets s) ->
  Forall (fun x => Ticket.created_on x <= Ticket.updated_on x)
    (tickets (run ops s)).
Proof.
  revert s. induction ops as [|op ops IH]; intros s Hclock Hs.
  - simpl. rewrite Forall_forall in Hs |- *. intros x Hx.
    exact (proj1 (Hs x Hx)).
  - simpl in Hclock |- *. apply IH.
    + destruct (op_time op); [|exact Hclock].
      apply StronglySorted_inv in Hclock. tauto.
    + destruct (op_time op) as [now|] eqn:Et.
      * apply StronglySorted_inv in Hclock. destruct Hclock as [_ Hlater].
        assert (Hq : Forall (fun x => Ticket.created_on x
                                      <= Ticket.updated_on x
                                      /\ Ticket.updated_on x <= now)
                       (tickets (step s op))).
        { apply step_Forall.
          - intros pk now' d Hnow _. rewrite Et in Hnow.
            injection Hnow as <-. simpl. lia.
          - intros now' x Hnow Hx. rewrite Et in Hnow.
            injection Hnow as <-. simpl. lia.
          - intros v x _ Hx. exact Hx.
          - intros v x Hx. exact Hx.
          - intros v x Hx. exact Hx.
          - intros v x Hx. exact Hx.
          - rewrite Forall_forall in Hs |- *. intros x Hx.
            simpl in Hs. rewrite Et in Hs.
            destruct (Hs x Hx) as [Hc Hu].
            apply Forall_inv in Hu. tauto. }
        rewrite Forall_forall in Hq, Hlater |- *. intros x Hx.
        destruct (Hq x Hx) as [Hc Hu]. split; [exact Hc|].
        rewrite Forall_forall. intros t Ht. specialize (Hlater t Ht). lia.
      * apply step_Forall.
        -- intros pk now d Hnow. rewrite Et in Hnow. discriminate Hnow.
        -- intros now x Hnow. rewrite Et in Hnow. discriminate Hnow.
        -- intros v x _ Hx. exact Hx.
        -- intros v x Hx. exact Hx.
        -- intros v x Hx. exact Hx.
        -- intros v x Hx. exact Hx.
        -- simpl in Hs. rewrite Et in Hs. exact Hs.
Qed.

(** X12: when the clock the operations read never runs backwards, every
    ticket in the store has [created_on] no later than [updated_on]. *)
Theorem created_on_before_updated_on (ops : list Op) (x : Ticket.t) :
  StronglySorted Z.le (clock_readings ops) ->
  In x (tickets (run ops empty_store)) ->
  Ticket.created_on x <= Ticket.updated_on x.
Proof.
  intros Hclock Hx.
  pose proof (run_stamps_ordered ops empty_store Hclock (Forall_nil _)) as H.
  rewrite Forall_forall in H. exact (H x Hx).
Qed.

Lemma created_on_before_updated_on_witness :
  Ticket.created_on
    (Ticket.with_updated_on 7
       (Ticket.with_status "closed" (new_ticket 1 5 printer_ticket)))
  <= Ticket.updated_on
       (Ticket.with_updated_on 7
          (Ticket.with_status "closed" (new_ticket 1 5 printer_ticket))).
Proof.
  apply (created_on_before_updated_on triage).
  - simpl. repeat constructor; lia.
  - vm_compute. left. reflexivity.
Defined.

(** ** Display strings *)

Example str_int_examples :
  str_int 0 = "0" /\ str_int 12 = "12" /\ str_int (-3) = "-3".
Proof. repeat split; reflexivity. Qed.

Example Ticket__str__example :
  Ticket__str__ (new_ticket 12 5 printer_ticket)
  = "Request #: 12 - Printer broken today".
Proof. reflexivity. Qed.

Lemma to_int_proper (n : Z) :
  Z.to_int n <> Decimal.Pos Decimal.Nil
  /\ Z.to_int n <> Decimal.Neg Decimal.Nil.
Proof.
  destruct n as [|p|p]; simpl; split; try discriminate;
    intros [= H]; exact (DecimalPos.Unsigned.to_uint_nonnil p H).
Qed.

Lemma str_int_inj (a b : Z) : str_int a = str_int b -> a = b.
Proof.
  unfold str_int. intros H.
  apply (f_equal DecimalString.NilZero.int_of_string) in H.
  destruct (to_int_proper a) as [Ha1 Ha2].
  destruct (to_int_proper b) as [Hb1 Hb2].
  rewrite !DecimalString.NilZero.isi in H by assumption.
  injection H as H. apply DecimalZ.to_int_inj, H.
Qed.

Lemma digits_no_space (d : Decimal.uint) :
  Text.contains " " (DecimalString.NilEmpty.string_of_uint d) = false.
Proof. induction d; simpl; trivial. Qed.

Lemma str_int_no_space (n : Z) : Text.contains " " (str_int n) = false.
Proof.
  unfold str_int.
  assert (H : forall d,
             Text.contains " " (DecimalString.NilZero.string_of_uint d)
             = false).
  { intros d. destruct d; try apply digits_no_space. reflexivity. }
  destruct (Z.to_int n); simpl; apply H.
Qed.

Lemma append_separator_inj (a b t1 t2 : string) :
  Text.contains " " a = false ->
  Text.contains " " b = false ->
  String.append a (String.append " - " t1)
  = String.append b (String.append " - " t2) ->
  a = b /\ t1 = t2.
Proof.
  revert b. induction a as [|c a IH]; intros [|c' b] Ha Hb E; simpl in *.
  - injection E as E. tauto.
  - injection E as Ec _. subst c'. discriminate Hb.
  - injection E as Ec _. subst c. discriminate Ha.
  - injection E as -> E.
    apply orb_false_elim in Ha, Hb.
    destruct (IH b (proj2 Ha) (proj2 Hb) E) as [-> ->]. tauto.
Qed.

Lemma append_same_prefix (p a b : string) :
  String.append p a = String.append p b -> a = b.
Proof.
  induction p as [|c p IH]; simpl; intros E; [exact E|].
  injection E as E. exact (IH E).
Qed.

(** X13: the display string of a ticket tells its request number and its
    title: two tickets with the same [__str__] have the same id and the
    same title. *)
Theorem Ticket__str__inj (x y : Ticket.t) :
  Ticket__str__ x = Ticket__str__ y ->
  Ticket.id x = Ticket.id y /\ Ticket.title x = Ticket.title y.
Proof.
  unfold Ticket__str__. intros E.
  apply append_same_prefix in E.
  apply append_separator_inj in E; try apply str_int_no_space.
  destruct E as [Hid Htitle]. split; [apply str_int_inj, Hid | exact Htitle].
Qed.

Lemma Ticket__str__inj_witness :
  Ticket.id (new_ticket 1 5 printer_ticket)
  = Ticket.id (Ticket.with_status "closed" (new_ticket 1 5 printer_ticket))
  /\ Ticket.title (new_ticket 1 5 printer_ticket)
     = Ticket.title
         (Ticket.with_status "closed" (new_ticket 1 5 printer_ticket)).
Proof.
  apply Ticket__str__inj. reflexivity.
Defined.

(** ** The staff form *)







(** ** Settings *)

Lemma split_not_nil (sep : ascii) (s : string) : split sep s <> [].
Proof.
  destruct s as [|c r]; simpl; [discriminate|].
  destruct (Ascii.eqb c sep); [discriminate|].
  destruct (split sep r); discriminate.
Qed.

Lemma join_split (sep : ascii) (s : string) : join sep (split sep s) = s.
Proof.
  induction s as [|c r IH]; [reflexivity|].
  simpl. destruct (Ascii.eqb c sep) eqn:E.
  - apply Ascii.eqb_eq in E. subst c.
    pose proof (split_not_nil sep r) as Hne.
    destruct (split sep r) as [|h t]; [contradiction|].
    change (join sep (EmptyString :: h :: t))
      with (String sep (join sep (h :: t))).
    rewrite IH. reflexivity.
  - pose proof (split_not_nil sep r) as Hne.
    destruct (split sep r) as [|h t]; [contradiction|].
    rewrite <- IH. destruct t; reflexivity.
Qed.

Lemma split_parts_clean (sep : ascii) (s : string) :
  Forall (fun part => Text.contains sep part = false) (split sep s).
Proof.
  induction s as [|c r IH]; simpl; [repeat constructor|].
  destruct (Ascii.eqb c sep) eqn:E; [constructor; [reflexivity | exact IH]|].
  destruct (split sep r) as [|h t]; [repeat constructor; simpl; now rewrite E|].
  inversion IH as [|? ? Hh Ht]; subst.
  constructor; [|exact Ht]. simpl. rewrite E, Hh. reflexivity.
Qed.

Lemma split_length (sep : ascii) (s : string) :
  List.length (split sep s) = S (Text.count sep s).
Proof.
  induction s as [|c r IH]; simpl; [reflexivity|].
  destruct (Ascii.eqb c sep); simpl; [rewrite IH; reflexivity|].
  pose proof (split_not_nil sep r) as Hne.
  destruct (split sep r) as [|h t]; [contradiction|]. exact IH.
Qed.

(** X15: [ALLOWED_HOSTS] is the value of the environment variable, or
    ["127.0.0.1"] if it is not set, cut at its commas: joining the hosts
    with commas gives the value back, no host holds a comma, and there is
    one host more than there are commas, so there is always at least one
    host (an empty one if the variable is set to the empty text). *)
Theorem ALLOWED_HOSTS_split (environ : Environ) :
  let value := or_default (environ "ALLOWED_HOSTS") "127.0.0.1" in
  join "," (ALLOWED_HOSTS environ) = value
  /\ Forall (fun host => Text.contains "," host = false)
       (ALLOWED_HOSTS environ)
  /\ List.length (ALLOWED_HOSTS environ) = S (Text.count "," value)
  /\ (environ "ALLOWED_HOSTS" = None -> ALLOWED_HOSTS environ = ["127.0.0.1"])
  /\ (environ "ALLOWED_HOSTS" = Some "" -> ALLOWED_HOSTS environ = [""]).
Proof.
  intros value. unfold ALLOWED_HOSTS. fold value.
  split; [apply join_split|].
  split; [apply split_parts_clean|].
  split; [apply split_length|].
  split; intros H; unfold value; rewrite H; reflexivity.
Qed.

Example ALLOWED_HOSTS_two :
  ALLOWED_HOSTS (fun name => if String.eqb name "ALLOWED_HOSTS"
                             then Some "example.org,localhost" else None)
  = ["example.org"; "localhost"].
Proof. reflexivity. Qed.

(** ** Stripping what is already stripped *)




(** ** Deleting twice *)

Lemma filter_twice {A : Type} (p : A -> bool) (l : list A) :
  filter p (filter p l) = filter p l.
Proof.
  induction l as [|x rest IH]; simpl; [reflexivity|].
  destruct (p x) eqn:E; simpl; [rewrite E, IH; reflexivity | exact IH].
Qed.

Lemma filter_map_swap {A : Type} (p : A -> bool) (h : A -> A) (l : list A) :
  (forall x, p (h x) = p x) -> filter p (map h l) = map h (filter p l).
Proof.
  intros Hp. induction l as [|x rest IH]; simpl; [reflexivity|].
  rewrite Hp. destruct (p x); simpl; rewrite IH; reflexivity.
Qed.

Lemma filter_all {A : Type} (p : A -> bool) (l : list A) :
  (forall x, p x = true) -> filter p l = l.
Proof.
  intros Hp. induction l as [|x rest IH]; simpl; [reflexivity|].
  rewrite Hp, IH. reflexivity.
Qed.

Lemma filter_none {A : Type} (p q : A -> bool) (l : list A) :
  (forall x, q x = true -> p x = false) -> filter p (filter q l) = [].
Proof.
  intros H. induction l as [|x rest IH]; simpl; [reflexivity|].
  destruct (q x) eqn:E; simpl; [rewrite (H x E)|]; exact IH.
Qed.

Lemma set_null_twice (pk : Z) (fk : option Z) :
  set_null pk (set_null pk fk) = set_null pk fk.
Proof.
  unfold set_null. destruct fk as [k|]; simpl; [|reflexivity].
  destruct (k =? pk) eqn:E; simpl; [reflexivity|]. rewrite E. reflexivity.
Qed.

(** X17: deleting a user a second time changes nothing: the cascade and
    the nulling of references are complete after the first deletion. *)
Theorem delete_user_twice (u : Z) (s : Store) :
  delete_user u (delete_user u s) = delete_user u s.
Proof.
  assert (Hgone : tickets_authored_by u (delete_user u s) = []).
  { unfold tickets_authored_by. simpl.
    rewrite filter_map_swap by reflexivity.
    rewrite filter_none; [reflexivity|].
    intros x Hx. apply negb_true_iff in Hx. exact Hx. }
  unfold delete_user at 1. rewrite Hgone. simpl.
  unfold delete_user. f_equal.
  - apply filter_twice.
  - rewrite filter_map_swap by reflexivity.
    rewrite filter_twice, map_map. apply map_ext. intros x.
    unfold Ticket.with_assigned_technician. simpl.
    rewrite set_null_twice. reflexivity.
  - rewrite filter_all by reflexivity.
    rewrite map_map. apply map_ext. intros c.
    unfold Comment.with_author. simpl.
    rewrite set_null_twice. reflexivity.
Qed.

(** ** A save that reaches no row *)

Lemma getTicket_missing (s : Store) (pk : Z) :
  getTicket s pk = Err NotFoundError ->
  existsb (fun r => Ticket.id r =? pk) (tickets s) = false.
Proof.
  unfold getTicket.
  destruct (find (fun row => Ticket.id row =? pk) (tickets s)) as [x|] eqn:E;
    [discriminate|].
  intros _.
  destruct (existsb _ (tickets s)) eqn:Ex; [|reflexivity].
  apply existsb_exists in Ex. destruct Ex as (y & Hy & Hid).
  pose proof (find_none _ _ E y Hy) as Hf. simpl in Hf. congruence.
Qed.

(** X18: when the ticket is not in the store (it was deleted, say),
    [set_ticket_updated_now] fails with a database error and leaves the
    store as it was; the instance in memory has the new [updated_on] all
    the same, since it is set before the save. *)
Theorem set_ticket_updated_now_missing (now : Z) (self : Ticket.t)
  (s : Store) :
  getTicket s (Ticket.id self) = Err NotFoundError ->
  set_ticket_updated_now now self s
  = ((Ticket.with_updated_on now self, Err DatabaseError), s).
Proof.
  intros Hmiss. unfold set_ticket_updated_now, save_update_fields.
  change (Ticket.id (Ticket.with_updated_on now self)) with (Ticket.id self).
  rewrite (getTicket_missing _ _ Hmiss). reflexivity.
Qed.

Lemma set_ticket_updated_now_missing_witness :
  set_ticket_updated_now 9 (new_ticket 1 5 printer_ticket)
    (delete_ticket 1 one_ticket)
  = ((Ticket.with_updated_on 9 (new_ticket 1 5 printer_ticket),
      Err DatabaseError),
     delete_ticket 1 one_ticket).
Proof.
  apply set_ticket_updated_now_missing. vm_compute. reflexivity.
Defined.
